(** * Clickstream producer ([src/producer/app.py]): model and properties

    The producer synthesises clickstream sessions, injects out-of-order
    timestamps and duplicates, and writes newline-delimited JSON.  The
    program is sequential and driven by three sources of entropy (module
    [random], [uuid.uuid4], the Faker instance) and by the wall clock.
    All of them are read from tapes held in the world, so that every run of
    the program is a total function of its arguments and of the world.

    Conventions of the model:
    - text is the sequence of bytes of its UTF-8 encoding;
    - a float is the rational number it denotes, or one of the special
      values; the float operations of [random.uniform], [random.choices]
      and [round] are rounded to nearest, ties to even, on 53 bits ([fl]);
      the price is counted in hundredths; instants are counted in
      microseconds, and the conversions of the out-of-order step between
      instants and float seconds are taken as exact, which they are for
      clock readings before the year 2242;
    - the dictionaries built by [asdict] live in a heap and are named by
      their address, so that a list slot and a variable may share one;
    - an uncaught exception ends the run with its name and the world it left;
    - the file system is asked two questions (can the directory be made,
      can the file be opened), and writing a line never fails;
    - [time.sleep] is asked whether it accepts the pause. *)

From Stdlib Require Import ZArith QArith String Ascii DecimalString DecimalPos Lia Lqa.
From stdpp Require Import base list strings.

Set Warnings "-register-all".
Local Open Scope string_scope.

(** ** Text

    A Python [str] is modelled by the bytes of its UTF-8 encoding, which is
    also what reaches the output file ([encoding="utf-8"]).  Every byte
    above 127 belongs to a non-ASCII character. *)

Definition str_of_Z (z : Z) : string := NilZero.string_of_int (Z.to_int z).

Fixpoint zeros (n : nat) : string :=
  match n with O => "" | S k => String "0" (zeros k) end.

(** [f"{z:0{width}d}"] for a non-negative [z]. *)
Definition pad (width : nat) (z : Z) : string :=
  let s := str_of_Z z in zeros (width - String.length s) +:+ s.

(** ** Floats

    A parsed [float] is either a finite binary fraction, which is a rational
    number, or one of the three special values.  Comparison is exact on
    finite values and false as soon as a NaN takes part. *)

Inductive pyfloat : Type :=
| Finite (q : Q)
| PosInf
| NegInf
| NaN.

(** [u < r] for a finite [u]. *)
Definition float_lt (u : Q) (r : pyfloat) : bool :=
  match r with
  | Finite q => negb (Qle_bool q u)
  | PosInf => true
  | NegInf => false
  | NaN => false
  end.

(** [a / b] rounded to the nearest integer, ties to the even one, for
    [b > 0]. *)
Definition rne_div (a b : Z) : Z :=
  let q := (a / b)%Z in
  let r := (a mod b)%Z in
  if (2 * r <? b)%Z then q
  else if (b <? 2 * r)%Z then (q + 1)%Z
  else if Z.even q then q else (q + 1)%Z.

(** The binary64 float nearest to the positive rational [n / d]: the
    exponent [e] is chosen so that [n / (d * 2^e)] lies in [[2^52, 2^53)],
    and that quotient is rounded to an integer, ties to even.  The exponent
    range of the format is not modelled; the values of this program stay
    far inside it. *)
Definition fl_pos (n d : Z) : Q :=
  let e0 := (Z.log2 n - Z.log2 d - 53)%Z in
  let over := if (0 <=? e0)%Z then (2 ^ 53 * (d * 2 ^ e0) <=? n)%Z
              else (2 ^ 53 * d <=? n * 2 ^ (- e0))%Z in
  let e := if over then (e0 + 1)%Z else e0 in
  if (0 <=? e)%Z
  then inject_Z (rne_div n (d * 2 ^ e) * 2 ^ e)
  else rne_div (n * 2 ^ (- e)) d # Z.to_pos (2 ^ (- e)).

(** The result of a float operation whose exact result is [x]; also the
    float that a decimal literal denotes. *)
Definition fl (x : Q) : Q :=
  match Qnum x with
  | Z0 => 0
  | Zpos _ => fl_pos (Qnum x) (Zpos (Qden x))
  | Zneg _ => - fl_pos (- Qnum x) (Zpos (Qden x))
  end.

(** ** JSON values and dictionaries

    A [dict] keeps its keys in insertion order, which is the order of the
    members in the serialised text. *)

Inductive json : Type :=
| JStr (s : string)
| JInt (z : Z)
| JFloat2 (cents : Z)   (* the float [round(x, 2)], counted in hundredths *)
| JDict (d : list (string * json)).

Abbreviation dict := (list (string * json)).

Fixpoint dict_get (k : string) (d : dict) : option json :=
  match d with
  | [] => None
  | (k', v) :: rest => if String.eqb k' k then Some v else dict_get k rest
  end.

(** [d[k] = v]: overwrite in place when the key exists, append otherwise. *)
Fixpoint dict_set (k : string) (v : json) (d : dict) : dict :=
  match d with
  | [] => [(k, v)]
  | (k', v') :: rest =>
      if String.eqb k' k then (k', v) :: rest else (k', v') :: dict_set k v rest
  end.

(** [d.update(other)] *)
Definition dict_update (d other : dict) : dict :=
  fold_left (fun acc kv => dict_set (fst kv) (snd kv) acc) other d.

Definition dict_keys (d : dict) : list string := map fst d.

(** ** The dataclass *)

Record ClickstreamEvent : Type := {
  event_id : string;
  event_ts : string;
  user_id : string;
  session_id : string;
  event_type : string;
  page : string;
  referrer : string;
  device : dict;
  geo : dict;
  attributes : dict;
}.

(** [dataclasses.asdict]: a fresh dictionary, fields in declaration order. *)
Definition asdict (ev : ClickstreamEvent) : dict :=
  [ ("event_id", JStr (event_id ev));
    ("event_ts", JStr (event_ts ev));
    ("user_id", JStr (user_id ev));
    ("session_id", JStr (session_id ev));
    ("event_type", JStr (event_type ev));
    ("page", JStr (page ev));
    ("referrer", JStr (referrer ev));
    ("device", JDict (device ev));
    ("geo", JDict (geo ev));
    ("attributes", JDict (attributes ev)) ].

(** ** The world *)

Inductive exn : Type :=
| ValueError
| IndexError
| OverflowError
| FileNotFoundError
| PermissionError
| OtherOSError.

Inductive fh_state : Type := NotOpened | Opened | Closed.

(** What the program reads from outside.  The file system answers two
    questions: whether [os.makedirs(p, exist_ok=True)] succeeds on a
    non-empty path and whether [open(p, "w")] succeeds.  [time.sleep]
    answers whether it accepts a pause of that many milliseconds; the
    platform limits the length of a pause and raises beyond its limit. *)
Record Env : Type := {
  rand_raw : nat -> N;          (* successive draws of module [random] *)
  uuid_raw : nat -> N;          (* [os.urandom(16)] of successive [uuid4()] *)
  faker_city : nat -> string;   (* successive [fake.city()] *)
  wall_clock : nat -> Z;        (* successive clock readings, in microseconds *)
  float_repr : pyfloat -> string;
  makedirs_result : string -> option exn;
  open_result : string -> option exn;
  sleep_result : Z -> option exn;
}.

(** A dictionary built by [asdict] lives in the heap and is named by its
    address; variables and list slots hold addresses. *)
Abbreviation ref := nat.

Record World : Type := {
  env : Env;
  rand_pos : nat;
  uuid_pos : nat;
  city_pos : nat;
  clock_pos : nat;
  heap : list dict;
  stdout : list string;         (* one entry per printed line *)
  file_state : fh_state;
  file_lines : list string;     (* one entry per [write(line + "\n")] *)
  slept_ms : Z;
}.

Definition with_rand_pos (n : nat) (w : World) : World :=
  {| env := env w; rand_pos := n; uuid_pos := uuid_pos w; city_pos := city_pos w;
     clock_pos := clock_pos w; heap := heap w; stdout := stdout w;
     file_state := file_state w; file_lines := file_lines w; slept_ms := slept_ms w |}.

Definition with_uuid_pos (n : nat) (w : World) : World :=
  {| env := env w; rand_pos := rand_pos w; uuid_pos := n; city_pos := city_pos w;
     clock_pos := clock_pos w; heap := heap w; stdout := stdout w;
     file_state := file_state w; file_lines := file_lines w; slept_ms := slept_ms w |}.

Definition with_city_pos (n : nat) (w : World) : World :=
  {| env := env w; rand_pos := rand_pos w; uuid_pos := uuid_pos w; city_pos := n;
     clock_pos := clock_pos w; heap := heap w; stdout := stdout w;
     file_state := file_state w; file_lines := file_lines w; slept_ms := slept_ms w |}.

Definition with_clock_pos (n : nat) (w : World) : World :=
  {| env := env w; rand_pos := rand_pos w; uuid_pos := uuid_pos w; city_pos := city_pos w;
     clock_pos := n; heap := heap w; stdout := stdout w;
     file_state := file_state w; file_lines := file_lines w; slept_ms := slept_ms w |}.

Definition with_heap (h : list dict) (w : World) : World :=
  {| env := env w; rand_pos := rand_pos w; uuid_pos := uuid_pos w; city_pos := city_pos w;
     clock_pos := clock_pos w; heap := h; stdout := stdout w;
     file_state := file_state w; file_lines := file_lines w; slept_ms := slept_ms w |}.

Definition with_stdout (o : list string) (w : World) : World :=
  {| env := env w; rand_pos := rand_pos w; uuid_pos := uuid_pos w; city_pos := city_pos w;
     clock_pos := clock_pos w; heap := heap w; stdout := o;
     file_state := file_state w; file_lines := file_lines w; slept_ms := slept_ms w |}.

Definition with_file (s : fh_state) (l : list string) (w : World) : World :=
  {| env := env w; rand_pos := rand_pos w; uuid_pos := uuid_pos w; city_pos := city_pos w;
     clock_pos := clock_pos w; heap := heap w; stdout := stdout w;
     file_state := s; file_lines := l; slept_ms := slept_ms w |}.

Definition with_slept (z : Z) (w : World) : World :=
  {| env := env w; rand_pos := rand_pos w; uuid_pos := uuid_pos w; city_pos := city_pos w;
     clock_pos := clock_pos w; heap := heap w; stdout := stdout w;
     file_state := file_state w; file_lines := file_lines w; slept_ms := z |}.

(** ** Computations that may raise *)

Inductive outcome (A : Type) : Type :=
| Ok (a : A) (w : World)
| Raised (e : exn) (w : World).

Arguments Ok {A} a w.
Arguments Raised {A} e w.

Definition Py (A : Type) : Type := World -> outcome A.

Definition ret {A} (a : A) : Py A := fun w => Ok a w.

Definition raise {A} (e : exn) : Py A := fun w => Raised e w.

Definition bind {A B} (m : Py A) (k : A -> Py B) : Py B :=
  fun w => match m w with
           | Ok a w' => k a w'
           | Raised e w' => Raised e w'
           end.

Notation "'let*' x ':=' m 'in' k" := (bind m (fun x => k))
  (at level 10, x name, m at level 100, k at level 200).

Definition world_of {A} (o : outcome A) : World :=
  match o with Ok _ w => w | Raised _ w => w end.

(** ** Module [random]

    Every call of a primitive of the module ([random], [_randbelow]) takes
    the next entry of the tape; [choice], [randint], [uniform] and [choices]
    are written on top of the primitives as in the library. *)

Definition next_raw : Py N :=
  fun w => Ok (rand_raw (env w) (rand_pos w)) (with_rand_pos (S (rand_pos w)) w).

(** [Random._randbelow(n)] for [n > 0]: the primitive that is uniform on
    [0 .. n-1]. *)
Definition randbelow (n : N) : Py N :=
  let* r := next_raw in ret (r mod n)%N.

(** [random.choice(seq)] is [seq[_randbelow(len(seq))]]; an empty
    sequence raises [IndexError]. *)
Definition random_choice {A} (l : list A) : Py A :=
  match l with
  | [] => raise IndexError
  | d :: _ =>
      let* i := randbelow (N.of_nat (length l)) in ret (nth (N.to_nat i) l d)
  end.

(** [random.randint(a, b)] is [a + _randbelow(b + 1 - a)]; an empty range
    raises [ValueError]. *)
Definition randint (a b : Z) : Py Z :=
  if (b + 1 - a <=? 0)%Z then raise ValueError
  else let* r := randbelow (Z.to_N (b + 1 - a)) in ret (a + Z.of_N r)%Z.

(** [random.random()]: a multiple of [2^-53] in [[0, 1)]. *)
Definition two53 : positive := 9007199254740992.

Definition random_random : Py Q :=
  let* r := next_raw in ret (Z.of_N (r mod Npos two53) # two53).

(** [round(random.uniform(5.0, 300.0), 2)], in hundredths.
    [uniform(a, b)] is [a + (b - a) * random()], a float product and a
    float sum; [round(x, 2)] is the decimal with two places nearest to the
    float [x], ties to even. *)
Definition uniform_price : Py Z :=
  let* u := random_random in
  let x := fl (5 + fl (295 * u)) in
  ret (rne_div (100 * Qnum x) (Zpos (Qden x))).

(** [random.choices(population, weights=[0.78, 0.18, 0.04], k=1)[0]]:
    the weights are cumulated by float sums, the draw is scaled by the
    total, and [bisect] looks the product up among the cumulated weights
    but the last. *)
Definition weighted_event_type : Py string :=
  let c0 := fl (78 # 100) in
  let c1 := fl (c0 + fl (18 # 100)) in
  let total := fl (c1 + fl (4 # 100)) in
  let* u := random_random in
  let x := fl (u * total) in
  ret (if float_lt x (Finite c0) then "page_view"
       else if float_lt x (Finite c1) then "add_to_cart"
       else "purchase").

(** ** [uuid], Faker, the clock *)

Definition hex_digit (n : nat) : ascii :=
  nth n (list_ascii_of_string "0123456789abcdef") "0"%char.

(** ['%0kx' % n]: the last [k] hexadecimal digits of [n]. *)
Fixpoint hex_of (k : nat) (n : N) : string :=
  match k with
  | O => ""
  | S k' => hex_of k' (n / 16) +:+ String (hex_digit (N.to_nat (n mod 16))) ""
  end.

(** [UUID(bytes=os.urandom(16), version=4).int]: 128 random bits with the
    variant bits set to [10] and the version bits to [0100]. *)
Definition uuid4_int (r : N) : N :=
  let i := (r mod 2 ^ 128)%N in
  let i := N.ldiff i (N.shiftl 49152 48) in
  let i := N.lor i (N.shiftl 32768 48) in
  let i := N.ldiff i (N.shiftl 61440 64) in
  N.lor i (N.shiftl 4 76).

(** [uuid.uuid4().hex] of call number [i]. *)
Definition uuid_hex (e : Env) (i : nat) : string :=
  hex_of 32 (uuid4_int (uuid_raw e i)).

Definition uuid4_hex : Py string :=
  fun w => Ok (uuid_hex (env w) (uuid_pos w)) (with_uuid_pos (S (uuid_pos w)) w).

(** [str(uuid.uuid4())] *)
Definition uuid4_str : Py string :=
  let* h := uuid4_hex in
  ret (substring 0 8 h +:+ "-" +:+ substring 8 4 h +:+ "-" +:+ substring 12 4 h
       +:+ "-" +:+ substring 16 4 h +:+ "-" +:+ substring 20 12 h).

Definition fake_city : Py string :=
  fun w => Ok (faker_city (env w) (city_pos w)) (with_city_pos (S (city_pos w)) w).

(** [datetime.now(timezone.utc)], in microseconds since the epoch. *)
Definition datetime_now : Py Z :=
  fun w => Ok (wall_clock (env w) (clock_pos w)) (with_clock_pos (S (clock_pos w)) w).

(** Days since 1970-01-01 to the proleptic Gregorian (year, month, day). *)
Definition civil_from_days (days : Z) : Z * Z * Z :=
  let z := (days + 719468)%Z in
  let era := (z / 146097)%Z in
  let doe := (z - era * 146097)%Z in
  let yoe := ((doe - doe / 1460 + doe / 36524 - doe / 146096) / 365)%Z in
  let doy := (doe - (365 * yoe + yoe / 4 - yoe / 100))%Z in
  let mp := ((5 * doy + 2) / 153)%Z in
  let d := (doy - (153 * mp + 2) / 5 + 1)%Z in
  let m := (if mp <? 10 then mp + 3 else mp - 9)%Z in
  let y := (yoe + era * 400 + (if m <=? 2 then 1 else 0))%Z in
  (y, m, d).

(** [dt.isoformat(timespec="milliseconds")] of the UTC instant [us]. *)
Definition isoformat_ms (us : Z) : string :=
  let day_us := 86400000000%Z in
  let '(y, m, d) := civil_from_days (us / day_us) in
  let r := (us mod day_us)%Z in
  pad 4 y +:+ "-" +:+ pad 2 m +:+ "-" +:+ pad 2 d +:+ "T"
  +:+ pad 2 (r / 3600000000) +:+ ":" +:+ pad 2 (r / 60000000 mod 60) +:+ ":"
  +:+ pad 2 (r / 1000000 mod 60) +:+ "." +:+ pad 3 (r / 1000 mod 1000) +:+ "+00:00".

Definition iso_utc_now : Py string :=
  let* t := datetime_now in ret (isoformat_ms t).

(** ** [json.dumps(payload, separators=(",", ":"), ensure_ascii=False)] *)

Definition dquote : ascii := "034"%char.

(** One character of [json.encoder.encode_basestring]: the quote, the
    backslash and the control characters are escaped, everything else is
    copied. *)
Definition escape_char (c : ascii) : string :=
  let n := nat_of_ascii c in
  if Nat.eqb n 34 then String "\" (String dquote "")
  else if Nat.eqb n 92 then "\\"
  else if Nat.eqb n 8 then "\b"
  else if Nat.eqb n 12 then "\f"
  else if Nat.eqb n 10 then "\n"
  else if Nat.eqb n 13 then "\r"
  else if Nat.eqb n 9 then "\t"
  else if Nat.ltb n 32 then
    "\u00" +:+ String (hex_digit (n / 16)) (String (hex_digit (n mod 16)) "")
  else String c "".

Fixpoint escape (s : string) : string :=
  match s with
  | "" => ""
  | String c r => escape_char c +:+ escape r
  end.

Definition encode_str (s : string) : string :=
  String dquote (escape s +:+ String dquote "").

(** [float.__repr__] of a float that [round(x, 2)] returned: the shortest
    decimal, with at least one digit after the point. *)
Definition repr_float2 (cents : Z) : string :=
  let a := Z.abs cents in
  let f := (a mod 100)%Z in
  (if (cents <? 0)%Z then "-" else "") +:+ str_of_Z (a / 100) +:+ "." +:+
  (if (f mod 10 =? 0)%Z then str_of_Z (f / 10) else pad 2 f).

Fixpoint json_dumps (v : json) : string :=
  match v with
  | JStr s => encode_str s
  | JInt z => str_of_Z z
  | JFloat2 c => repr_float2 c
  | JDict d =>
      "{" +:+ String.concat ","
                (map (fun '(k, x) => encode_str k +:+ ":" +:+ json_dumps x) d)
      +:+ "}"
  end.

(** ** Identifiers *)

Definition new_user_id : Py string :=
  let* h := uuid4_hex in ret ("usr_" +:+ substring 0 16 h).

Definition new_session_id : Py string :=
  let* h := uuid4_hex in ret ("sess_" +:+ substring 0 16 h).

(** ** The event synthesizer *)

Definition EVENT_TYPES : list string := ["page_view"; "add_to_cart"; "purchase"].
Definition PAGES : list string :=
  ["/"; "/search"; "/product"; "/cart"; "/checkout"; "/help"; "/pricing"].
Definition BROWSERS : list string := ["Chrome"; "Firefox"; "Safari"; "Edge"].
Definition OSES : list string := ["iOS"; "Android"; "Windows"; "macOS"; "Linux"].
Definition COUNTRIES : list string :=
  ["DE"; "FR"; "NL"; "GB"; "US"; "PL"; "SE"; "ES"; "IT"].

Definition COMMERCE_PAGES : list string := ["/product"; "/cart"; "/checkout"].

(** [etype in ("add_to_cart", "purchase")] *)
Definition is_commerce (etype : string) : bool :=
  String.eqb etype "add_to_cart" || String.eqb etype "purchase".

(** [event_type or random.choice(EVENT_TYPES)]: [None] and the empty
    string are both falsy. *)
Definition pick_etype (event_type : option string) : Py string :=
  match event_type with
  | Some (String c r) => ret (String c r)
  | _ => random_choice EVENT_TYPES
  end.

Definition commerce_attrs : Py dict :=
  let* sku := randint 1000 9999 in
  let* price := uniform_price in
  let* currency := random_choice ["EUR"; "USD"; "GBP"] in
  let* quantity := randint 1 3 in
  ret [ ("product_id", JStr ("sku_" +:+ str_of_Z sku));
        ("price", JFloat2 price);
        ("currency", JStr currency);
        ("quantity", JInt quantity) ].

Definition purchase_attrs : Py dict :=
  let* h := uuid4_hex in
  let* method := random_choice ["card"; "paypal"; "klarna"] in
  ret [ ("order_id", JStr ("ord_" +:+ substring 0 12 h));
        ("payment_method", JStr method) ].

Definition make_event (user_id session_id : string) (event_type : option string)
  : Py ClickstreamEvent :=
  let* etype := pick_etype event_type in
  let* page0 := random_choice PAGES in
  let* page :=
    (if is_commerce etype then random_choice COMMERCE_PAGES else ret page0) in
  let* referrer :=
    random_choice ["direct"; "google"; "newsletter"; "twitter"; "linkedin"; "partner_site"] in
  let* os := random_choice OSES in
  let* browser := random_choice BROWSERS in
  let* country := random_choice COUNTRIES in
  let* city := fake_city in
  let* variant := random_choice ["A"; "B"] in
  let* campaign := random_choice ["brand"; "summer_sale"; "retargeting"; "none"] in
  let attrs0 := [ ("ab_test_variant", JStr variant); ("utm_campaign", JStr campaign) ] in
  let* attrs1 :=
    (if is_commerce etype
     then let* extra := commerce_attrs in ret (dict_update attrs0 extra)
     else ret attrs0) in
  let* attrs :=
    (if String.eqb etype "purchase"
     then let* extra := purchase_attrs in ret (dict_update attrs1 extra)
     else ret attrs1) in
  let* eid := uuid4_str in
  let* ts := iso_utc_now in
  ret {| event_id := eid; event_ts := ts; user_id := user_id;
         session_id := session_id; event_type := etype; page := page;
         referrer := referrer;
         device := [ ("os", JStr os); ("browser", JStr browser) ];
         geo := [ ("country", JStr country); ("city", JStr city) ];
         attributes := attrs |}.

(** ** The session generator *)

(** The body of [for _ in range(n - 1)], run [k] times. *)
Fixpoint session_tail (k : nat) (user_id session_id : string)
  : Py (list ClickstreamEvent) :=
  match k with
  | O => ret []
  | S k' =>
      let* etype := weighted_event_type in
      let* ev := make_event user_id session_id (Some etype) in
      let* rest := session_tail k' user_id session_id in
      ret (ev :: rest)
  end.

Definition generate_session_events (user_id : string) (max_events : Z)
  : Py (list ClickstreamEvent) :=
  let* session_id := new_session_id in
  let* first := make_event user_id session_id (Some "page_view") in
  let* n := randint 1 max_events in
  let* more := session_tail (Z.to_nat (n - 1)) user_id session_id in
  ret (first :: more).

(** ** Command-line arguments

    [main] starts from the [Namespace] that [parse_args] returns: every
    flag has already been converted by its [type] ([int], [str], [float]),
    and no flag has a range check. *)

Record Namespace : Type := {
  events : Z;
  max_events_per_session : Z;
  sleep_ms : Z;
  out : string;
  dup_rate : pyfloat;
  oo_rate : pyfloat;
}.

(** The defaults of the flags; the two rates are the floats nearest to
    these fractions. *)
Definition default_args : Namespace :=
  {| events := 200; max_events_per_session := 12; sleep_ms := 0; out := "-";
     dup_rate := Finite (fl (1 # 100)); oo_rate := Finite (fl (2 # 100)) |}.

(** [repr] of a [str], for text made of printable characters: single
    quotes, unless the text holds a single quote and no double quote. *)
Definition repr_char (q c : ascii) : string :=
  let n := nat_of_ascii c in
  if Ascii.eqb c q then String "\" (String c "")
  else if Nat.eqb n 92 then "\\"
  else if Nat.eqb n 10 then "\n"
  else if Nat.eqb n 13 then "\r"
  else if Nat.eqb n 9 then "\t"
  else if Nat.ltb n 32 || Nat.eqb n 127 then
    "\x" +:+ String (hex_digit (n / 16)) (String (hex_digit (n mod 16)) "")
  else String c "".

Fixpoint has_char (c : ascii) (s : string) : bool :=
  match s with
  | "" => false
  | String c' r => Ascii.eqb c' c || has_char c r
  end.

Fixpoint repr_body (q : ascii) (s : string) : string :=
  match s with
  | "" => ""
  | String c r => repr_char q c +:+ repr_body q r
  end.

Definition repr_str (s : string) : string :=
  let q := if has_char "'" s && negb (has_char dquote s) then dquote else "'"%char in
  String q (repr_body q s +:+ String q "").

(** [repr(args)]: the attributes in the order the flags were declared. *)
Definition repr_Namespace (fr : pyfloat -> string) (a : Namespace) : string :=
  "Namespace(events=" +:+ str_of_Z (events a)
  +:+ ", max_events_per_session=" +:+ str_of_Z (max_events_per_session a)
  +:+ ", sleep_ms=" +:+ str_of_Z (sleep_ms a)
  +:+ ", out=" +:+ repr_str (out a)
  +:+ ", dup_rate=" +:+ fr (dup_rate a)
  +:+ ", oo_rate=" +:+ fr (oo_rate a) +:+ ")".

(** ** Output and the file system

    Writing a line to an open stream does not fail. *)

Definition print (line : string) : Py unit :=
  fun w => Ok tt (with_stdout (stdout w ++ [line])%list w).

(** [out_fh.write(line + "\n")] *)
Definition fh_write_line (line : string) : Py unit :=
  fun w => Ok tt (with_file (file_state w) (file_lines w ++ [line])%list w).

(** [posixpath.dirname]: everything up to the last slash, without the
    trailing slashes unless nothing else is left. *)
Fixpoint upto_last_slash (p : string) : string :=
  match p with
  | "" => ""
  | String c r =>
      match upto_last_slash r with
      | "" => if Ascii.eqb c "/" then "/" else ""
      | h => String c h
      end
  end.

Fixpoint all_slashes (s : string) : bool :=
  match s with
  | "" => true
  | String c r => Ascii.eqb c "/" && all_slashes r
  end.

Fixpoint rstrip_slashes (s : string) : string :=
  match s with
  | "" => ""
  | String c r => if all_slashes (String c r) then "" else String c (rstrip_slashes r)
  end.

Definition dirname (p : string) : string :=
  let head := upto_last_slash p in
  if all_slashes head then head else rstrip_slashes head.

(** [os.makedirs(name, exist_ok=True)].  On the empty path [mkdir] fails
    with ENOENT and the path is not a directory, so the error is
    re-raised whatever [exist_ok] says. *)
Definition os_makedirs (name : string) : Py unit :=
  fun w => match name with
           | "" => Raised FileNotFoundError w
           | _ => match makedirs_result (env w) name with
                  | Some e => Raised e w
                  | None => Ok tt w
                  end
           end.

(** [open(path, "w", encoding="utf-8")]: the file is created or truncated. *)
Definition open_w (path : string) : Py unit :=
  fun w => match open_result (env w) path with
           | Some e => Raised e w
           | None => Ok tt (with_file Opened [] w)
           end.

(** The first statement of the [try] block; the result tells whether
    [out_fh] is a file ([true]) or [None] ([false]). *)
Definition open_output (path : string) : Py bool :=
  if String.eqb path "-" then ret false
  else
    let* _ := os_makedirs (dirname path) in
    let* _ := open_w path in
    ret true.

(** [finally: if out_fh: out_fh.close()] *)
Definition close_output (out_fh : bool) (w : World) : World :=
  if out_fh then with_file Closed (file_lines w) w else w.

Definition try_finally {A} (body : Py A) (final : World -> World) : Py A :=
  fun w => match body w with
           | Ok a w' => Ok a (final w')
           | Raised e w' => Raised e (final w')
           end.

(** [int / float] converts the integer to a float first, which raises
    [OverflowError] when the integer rounds to [2^1024] or beyond. *)
Definition float_of_int_fails (n : Z) : bool :=
  (2 ^ 1024 - 2 ^ 970 <=? Z.abs n)%Z.

(** [time.sleep(ms / 1000.0)]: the division may overflow and [time.sleep]
    may refuse the pause; a pause that is accepted is accounted for. *)
Definition sleep (ms : Z) : Py unit :=
  fun w =>
    if float_of_int_fails ms then Raised OverflowError w
    else match sleep_result (env w) ms with
         | Some e => Raised e w
         | None => Ok tt (with_slept (slept_ms w + ms) w)
         end.

(** ** The heap of payload dictionaries *)

Definition alloc (d : dict) : Py ref :=
  fun w => Ok (length (heap w)) (with_heap (heap w ++ [d])%list w).

Definition load (r : ref) : Py dict :=
  fun w => Ok (default [] (heap w !! r)) w.

(** [payload[k] = v] *)
Definition setitem (r : ref) (k : string) (v : json) : Py unit :=
  fun w => Ok tt (with_heap (alter (dict_set k v) r (heap w)) w).

(** ** The emission loop *)

Record LoopState : Type := {
  emitted : Z;
  previously_emitted : list ref;
}.

(** Lines 183-186: the out-of-order injection on the fresh payload.  The
    clock is read before [randint] is called; [timestamp()], the
    subtraction and [fromtimestamp] are taken as exact to the microsecond. *)
Definition inject_out_of_order (args : Namespace) (payload : ref) : Py unit :=
  let* u := random_random in
  if float_lt u (oo_rate args) then
    let* now := datetime_now in
    let* delta := randint 60 3600 in
    setitem payload "event_ts" (JStr (isoformat_ms (now - delta * 1000000)))
  else ret tt.

(** Lines 188-190: the duplicate injection.  The draw is made only when
    the window is not empty. *)
Definition inject_duplicate (args : Namespace) (window : list ref) (payload : ref)
  : Py ref :=
  match window with
  | [] => ret payload
  | _ :: _ =>
      let* u := random_random in
      if float_lt u (dup_rate args) then random_choice window else ret payload
  end.

(** Lines 199-202: append, then cut to the last 2000 above 5000. *)
Definition retain (window : list ref) (payload : ref) : list ref :=
  let window' := (window ++ [payload])%list in
  if Nat.ltb 5000 (length window')
  then drop (length window' - 2000) window'
  else window'.

(** Lines 188-204: what happens to the payload once the out-of-order
    injection is done. *)
Definition emit_payload (args : Namespace) (out_fh : bool) (st : LoopState)
    (fresh : ref) : Py LoopState :=
  let* payload := inject_duplicate args (previously_emitted st) fresh in
  let* d := load payload in
  let line := json_dumps (JDict d) in
  let* _ := (if out_fh then fh_write_line line else print line) in
  let window := retain (previously_emitted st) payload in
  ret {| emitted := emitted st + 1; previously_emitted := window |}.

(** Lines 181-204: the emission of one event, from [asdict] to the
    increment of the counter. *)
Definition emit_one (args : Namespace) (out_fh : bool) (ev : ClickstreamEvent)
    (st : LoopState) : Py LoopState :=
  let* fresh := alloc (asdict ev) in
  let* _ := inject_out_of_order args fresh in
  emit_payload args out_fh st fresh.

(** Lines 206-207: [if args.sleep_ms > 0: time.sleep(args.sleep_ms / 1000.0)] *)
Definition pace (args : Namespace) : Py unit :=
  if (0 <? sleep_ms args)%Z then sleep (sleep_ms args) else ret tt.

(** One pass through the body of the [for] loop, after the [break] test:
    the emission, then the pause. *)
Definition pass (args : Namespace) (out_fh : bool) (ev : ClickstreamEvent)
    (st : LoopState) : Py LoopState :=
  let* st' := emit_one args out_fh ev st in
  let* _ := pace args in
  ret st'.

Fixpoint for_session (args : Namespace) (out_fh : bool)
    (session_events : list ClickstreamEvent) (st : LoopState) : Py LoopState :=
  match session_events with
  | [] => ret st
  | ev :: rest =>
      if (events args <=? emitted st)%Z then ret st
      else
        let* st' := pass args out_fh ev st in
        for_session args out_fh rest st'
  end.

(** [while emitted < args.events].  The result is [None] when the fuel runs
    out before the condition turns false. *)
Fixpoint while_emitting (fuel : nat) (args : Namespace) (out_fh : bool)
    (st : LoopState) : Py (option LoopState) :=
  if (emitted st <? events args)%Z then
    match fuel with
    | O => ret None
    | S fuel' =>
        let* user_id := new_user_id in
        let* session_events :=
          generate_session_events user_id (max_events_per_session args) in
        let* st' := for_session args out_fh session_events st in
        while_emitting fuel' args out_fh st'
    end
  else ret (Some st).

Definition initial_state : LoopState :=
  {| emitted := 0; previously_emitted := [] |}.

Definition banner (fr : pyfloat -> string) (args : Namespace) : string :=
  "producer starting with args: " +:+ repr_Namespace fr args.

Definition print_banner (args : Namespace) : Py unit :=
  fun w => print (banner (float_repr (env w)) args) w.

(** [main], returning the final loop state for inspection.  When opening
    the output raises, [out_fh] is still [None] and the [finally] clause
    has nothing to close.  Every pass of the [while] loop that does not
    raise emits at least one record, so [events] passes are enough. *)
Definition main_state (args : Namespace) : Py (option LoopState) :=
  let* _ := print_banner args in
  let* out_fh := open_output (out args) in
  try_finally
    (while_emitting (Z.to_nat (events args)) args out_fh initial_state)
    (close_output out_fh).

Definition main (args : Namespace) : Py unit :=
  let* _ := main_state args in ret tt.

(** The status of the process: 0 when [main] returns, 1 when an exception
    reaches the top level. *)
Definition exit_code {A} (o : outcome A) : Z :=
  match o with Ok _ _ => 0%Z | Raised _ _ => 1%Z end.

(** ** Recognising compact JSON

    A recogniser of the JSON grammar of RFC 8259 that accepts no
    insignificant white space.  Each function consumes one construct from
    the front of the text and returns what follows it. *)

Definition is_digit (c : ascii) : bool :=
  let n := nat_of_ascii c in Nat.leb 48 n && Nat.leb n 57.

Definition is_hex (c : ascii) : bool :=
  let n := nat_of_ascii c in
  is_digit c || (Nat.leb 97 n && Nat.leb n 102) || (Nat.leb 65 n && Nat.leb n 70).

Definition is_simple_escape (c : ascii) : bool :=
  has_char c (String dquote "\/bfnrt").

Fixpoint skip_digits (s : string) : string :=
  match s with
  | "" => ""
  | String c r => if is_digit c then skip_digits r else s
  end.

(** The rest of a string literal, after its opening quote. *)
Fixpoint skip_string (s : string) : option string :=
  match s with
  | "" => None
  | String c r =>
      if Ascii.eqb c dquote then Some r
      else if Ascii.eqb c "\" then
        match r with
        | "" => None
        | String e r' =>
            if is_simple_escape e then skip_string r'
            else if Ascii.eqb e "u" then
              match r' with
              | String h1 (String h2 (String h3 (String h4 r''))) =>
                  if is_hex h1 && is_hex h2 && is_hex h3 && is_hex h4
                  then skip_string r'' else None
              | _ => None
              end
            else None
        end
      else if Nat.ltb (nat_of_ascii c) 32 then None
      else skip_string r
  end.

Definition skip_int (s : string) : option string :=
  match s with
  | "" => None
  | String c r =>
      if Ascii.eqb c "0" then Some r
      else if is_digit c then Some (skip_digits r)
      else None
  end.

Definition skip_digits1 (s : string) : option string :=
  match s with
  | "" => None
  | String c r => if is_digit c then Some (skip_digits r) else None
  end.

Definition skip_frac (s : string) : option string :=
  match s with
  | String c r => if Ascii.eqb c "." then skip_digits1 r else Some s
  | "" => Some s
  end.

Definition skip_sign (s : string) : string :=
  match s with
  | String c r => if Ascii.eqb c "+" || Ascii.eqb c "-" then r else s
  | "" => s
  end.

Definition skip_exp (s : string) : option string :=
  match s with
  | String c r =>
      if Ascii.eqb c "e" || Ascii.eqb c "E" then skip_digits1 (skip_sign r)
      else Some s
  | "" => Some s
  end.

Definition skip_minus (s : string) : string :=
  match s with
  | String c r => if Ascii.eqb c "-" then r else s
  | "" => s
  end.

Definition skip_number (s : string) : option string :=
  match skip_int (skip_minus s) with
  | Some s1 => match skip_frac s1 with
               | Some s2 => skip_exp s2
               | None => None
               end
  | None => None
  end.

Fixpoint skip_prefix (p s : string) : option string :=
  match p, s with
  | "", _ => Some s
  | String a p', String b s' => if Ascii.eqb a b then skip_prefix p' s' else None
  | _, "" => None
  end.

Fixpoint skip_value (fuel : nat) (s : string) : option string :=
  match fuel with
  | O => None
  | S f =>
      match s with
      | "" => None
      | String c r =>
          if Ascii.eqb c dquote then skip_string r
          else if Ascii.eqb c "{" then
            match r with
            | String c' r' => if Ascii.eqb c' "}" then Some r' else skip_members f r
            | "" => None
            end
          else if Ascii.eqb c "[" then
            match r with
            | String c' r' => if Ascii.eqb c' "]" then Some r' else skip_elements f r
            | "" => None
            end
          else if Ascii.eqb c "t" then skip_prefix "true" s
          else if Ascii.eqb c "f" then skip_prefix "false" s
          else if Ascii.eqb c "n" then skip_prefix "null" s
          else skip_number s
      end
  end
with skip_members (fuel : nat) (s : string) : option string :=
  match fuel with
  | O => None
  | S f =>
      match s with
      | "" => None
      | String q r =>
          if Ascii.eqb q dquote then
            match skip_string r with
            | Some (String c r1) =>
                if Ascii.eqb c ":" then
                  match skip_value f r1 with
                  | Some (String c' r2) =>
                      if Ascii.eqb c' "," then skip_members f r2
                      else if Ascii.eqb c' "}" then Some r2
                      else None
                  | _ => None
                  end
                else None
            | _ => None
            end
          else None
      end
  end
with skip_elements (fuel : nat) (s : string) : option string :=
  match fuel with
  | O => None
  | S f =>
      match skip_value f s with
      | Some (String c' r2) =>
          if Ascii.eqb c' "," then skip_elements f r2
          else if Ascii.eqb c' "]" then Some r2
          else None
      | _ => None
      end
  end.

(** The whole text is one JSON value without white space. *)
Definition compact_json (s : string) : bool :=
  match skip_value (S (String.length s)) s with
  | Some "" => true
  | _ => false
  end.

(** The whole text is one JSON object without white space. *)
Definition compact_json_object (s : string) : bool :=
  match s with
  | String c _ => Ascii.eqb c "{" && compact_json s
  | "" => false
  end.

(** ** Vocabulary of the properties *)

(** [m] run from [w] returns normally, with a result and a world that
    satisfy [Q]. *)
Definition returns {A} (m : Py A) (w : World) (Q : A -> World -> Prop) : Prop :=
  match m w with
  | Ok a w' => Q a w'
  | Raised _ _ => False
  end.

(** [m] raises from world [w], and [Q] holds of the exception and of the
    world that is left. *)
Definition raises {A} (m : Py A) (w : World) (Q : exn -> World -> Prop) : Prop :=
  match m w with
  | Ok _ _ => False
  | Raised e w' => Q e w'
  end.

(** The part of the world that is not a tape position. *)
Definition io_of (w : World)
  : Env * list dict * list string * fh_state * list string * Z :=
  (env w, heap w, stdout w, file_state w, file_lines w, slept_ms w).

(** The draw that the next [random.random()] returns. *)
Definition unit_draw (w : World) : Q :=
  Z.of_N (rand_raw (env w) (rand_pos w) mod Npos two53) # two53.

(** The index that the next [_randbelow(n)] returns. *)
Definition index_draw (n : nat) (w : World) : nat :=
  N.to_nat (rand_raw (env w) (rand_pos w) mod N.of_nat n).

Definition ADD_TO_CART_KEYS : list string :=
  ["ab_test_variant"; "utm_campaign"; "product_id"; "price"; "currency"; "quantity"].

Definition PURCHASE_KEYS : list string :=
  (ADD_TO_CART_KEYS ++ ["order_id"; "payment_method"])%list.

(** The lines of the selected output destination. *)
Definition dest_lines (out_fh : bool) (w : World) : list string :=
  if out_fh then file_lines w else stdout w.

(** A session of at most [m] events, all of one user and one session, the
    first one a page view. *)
Definition session_ok (u : string) (m : Z) (evs : list ClickstreamEvent) : Prop :=
  exists first rest,
    evs = first :: rest /\ event_type first = "page_view" /\
    (Z.of_nat (length evs) <= m)%Z /\
    Forall (fun e => user_id e = u /\ session_id e = session_id first) evs.

(** The fuel that recognising the text of a value takes. *)
Fixpoint jsize (v : json) : nat :=
  match v with
  | JDict d => S (list_sum (map (fun '(_, x) => S (jsize x)) d))
  | _ => 1
  end.

Definition members_size (d : dict) : nat :=
  list_sum (map (fun '(_, x) => S (jsize x)) d).

(** The text that may follow a value inside a compact document. *)
Definition ends_value (s : string) : bool :=
  match s with
  | "" => true
  | String c _ => Ascii.eqb c "," || Ascii.eqb c "}" || Ascii.eqb c "]"
  end.

Fixpoint all_digits (s : string) : bool :=
  match s with
  | "" => true
  | String c r => is_digit c && all_digits r
  end.

Definition newline : ascii := "010"%char.

(** One member of an object, as [json_dumps] writes it. *)
Definition dumps_member (kv : string * json) : string :=
  encode_str (fst kv) +:+ ":" +:+ json_dumps (snd kv).

Definition not_digit_start (s : string) : bool :=
  match s with
  | "" => true
  | String c _ => negb (is_digit c)
  end.

Definition number_start (s : string) : bool :=
  match s with
  | "" => false
  | String c _ => is_digit c || Ascii.eqb c "-"
  end.

Definition starts_nonzero (d : Decimal.uint) : Prop :=
  match d with
  | Decimal.Nil | Decimal.D0 _ => False
  | _ => True
  end.

(** [skip_value] consumes exactly the text of [v], given enough fuel. *)
Definition value_recognised (v : json) : Prop :=
  forall n rest, jsize v <= n -> ends_value rest = true ->
    skip_value n (json_dumps v +:+ rest) = Some rest.

(** ** One emission, phase by phase *)

(** Line 184: whether the out-of-order branch is taken from world [w]. *)
Definition oo_taken (args : Namespace) (w : World) : bool :=
  float_lt (unit_draw w) (oo_rate args).

(** Line 185: the number of seconds that [random.randint(60, 3600)]
    returns when the branch is taken from world [w]. *)
Definition oo_delta (w : World) : Z :=
  (60 + Z.of_N (rand_raw (env w) (S (rand_pos w)) mod 3541))%Z.

(** Line 186: the replacement timestamp; the clock is read once more. *)
Definition oo_event_ts (w : World) : string :=
  isoformat_ms (wall_clock (env w) (clock_pos w) - oo_delta w * 1000000).

(** The payload dictionary as it stands when line 189 is reached. *)
Definition fresh_payload (args : Namespace) (ev : ClickstreamEvent) (w : World) : dict :=
  if oo_taken args w
  then dict_set "event_ts" (JStr (oo_event_ts w)) (asdict ev)
  else asdict ev.

(** The world in which line 189 runs: [asdict] and the out-of-order
    injection of this iteration are done. *)
Definition after_injection (args : Namespace) (ev : ClickstreamEvent) (w : World)
  : World :=
  world_of ((let* fresh := alloc (asdict ev) in inject_out_of_order args fresh) w).

(** Line 189: [previously_emitted and random.random() < args.dup_rate],
    evaluated in world [wi]. *)
Definition dup_taken (args : Namespace) (st : LoopState) (wi : World) : bool :=
  match previously_emitted st with
  | [] => false
  | _ :: _ => float_lt (unit_draw wi) (dup_rate args)
  end.

(** Line 190: the index that [random.choice] draws in the window, when
    the branch is taken from world [wi]. *)
Definition dup_index (st : LoopState) (wi : World) : nat :=
  index_draw (length (previously_emitted st)) (with_rand_pos (S (rand_pos wi)) wi).

(** The payload that is serialised, written and retained. *)
Definition chosen_payload (args : Namespace) (st : LoopState) (fresh : ref)
    (wi : World) : ref :=
  if dup_taken args st wi
  then nth (dup_index st wi) (previously_emitted st) fresh
  else fresh.

Definition payload_line (r : ref) (w : World) : string :=
  json_dumps (JDict (default [] (heap w !! r))).

(** Every address in the window holds a dictionary whose line is already
    on the output destination. *)
Definition window_ok (out_fh : bool) (st : LoopState) (w : World) : Prop :=
  Forall (fun r => exists d, heap w !! r = Some d /\
                             In (json_dumps (JDict d)) (dest_lines out_fh w))
         (previously_emitted st).

(** The size of the window after [n] emissions. *)
Definition window_size (n : Z) : Z :=
  if (n <=? 5000)%Z then n else (2000 + (n - 5001) mod 3001)%Z.

(** A line of the output: one compact JSON object, and nothing that would
    break it in two. *)
Definition line_ok (l : string) : Prop :=
  compact_json_object l = true /\ has_char newline l = false.

(** The pause that follows every emitted record: [--sleep-ms] when it is
    positive, nothing otherwise. *)
Definition pause (args : Namespace) : Z :=
  if (0 <? sleep_ms args)%Z then sleep_ms args else 0%Z.

(** The exception that lines 206-207 raise in environment [e], if any:
    the same one after every record, since neither the flag nor the
    environment changes during a run. *)
Definition pace_error (args : Namespace) (e : Env) : option exn :=
  if (0 <? sleep_ms args)%Z then
    if float_of_int_fails (sleep_ms args) then Some OverflowError
    else sleep_result e (sleep_ms args)
  else None.

(** What holds between two passes of the loop that started in world [w0]:
    the counter is the number of lines added to the destination, the window
    has the size that the retention policy gives, and its addresses name
    payloads that were written. *)
Definition run_inv (out_fh : bool) (w0 : World) (st : LoopState) (w : World) : Prop :=
  (0 <= emitted st)%Z /\
  Z.of_nat (length (previously_emitted st)) = window_size (emitted st) /\
  window_ok out_fh st w /\
  (exists lines,
      dest_lines out_fh w = (dest_lines out_fh w0 ++ lines)%list /\
      Z.of_nat (length lines) = emitted st /\
      Forall line_ok lines) /\
  dest_lines (negb out_fh) w = dest_lines (negb out_fh) w0 /\
  file_state w = file_state w0 /\
  env w = env w0.

(** The world once the banner is printed. *)
Definition after_banner (args : Namespace) (w : World) : World :=
  with_stdout (stdout w ++ [banner (float_repr (env w)) args])%list w.

(** ** A sample world and sample arguments

    Concrete inputs on which the statements below are exercised. *)

Definition sample_float_repr (f : pyfloat) : string :=
  match f with
  | Finite q =>
      if Qeq_bool q 0 then "0.0"
      else if Qeq_bool q 1 then "1.0"
      else if Qeq_bool q (1 # 100) then "0.01"
      else if Qeq_bool q (2 # 100) then "0.02"
      else if Qeq_bool q (3 # 2) then "1.5"
      else if Qeq_bool q (-1) then "-1.0"
      else "0.5"
  | PosInf => "inf"
  | NegInf => "-inf"
  | NaN => "nan"
  end.

Definition sample_env : Env :=
  {| rand_raw := fun n => N.of_nat (7 * n + 3);
     uuid_raw := fun n => (1512366075204170929049582354406559200 + N.of_nat n)%N;
     faker_city := fun _ => "Port Lisa";
     wall_clock := fun n => (1714566896789123 + Z.of_nat n * 1000)%Z;
     float_repr := sample_float_repr;
     makedirs_result := fun _ => None;
     open_result := fun _ => None;
     sleep_result := fun ms =>
       if (9223372036854 <? ms)%Z then Some OverflowError else None |}.

Definition sample_world : World :=
  {| env := sample_env; rand_pos := 0; uuid_pos := 0; city_pos := 0; clock_pos := 0;
     heap := []; stdout := []; file_state := NotOpened; file_lines := [];
     slept_ms := 0 |}.

Definition sample_event : ClickstreamEvent :=
  {| event_id := "01234567-89ab-cdef-0123-456789abcdef";
     event_ts := "2024-05-01T12:34:56.789+00:00";
     user_id := "usr_0123456789abcdef";
     session_id := "sess_0123456789abcdef";
     event_type := "page_view";
     page := "/pricing";
     referrer := "direct";
     device := [ ("os", JStr "Linux"); ("browser", JStr "Firefox") ];
     geo := [ ("country", JStr "DE"); ("city", JStr "Port Lisa") ];
     attributes := [ ("ab_test_variant", JStr "A"); ("utm_campaign", JStr "none") ] |}.

(** Two records on standard output, both injections always firing. *)
Definition sample_args : Namespace :=
  {| events := 2; max_events_per_session := 3; sleep_ms := 0; out := "-";
     dup_rate := Finite 1; oo_rate := Finite 1 |}.

(** A bare file name. *)
Definition sample_args_bare : Namespace :=
  {| events := 2; max_events_per_session := 3; sleep_ms := 0; out := "events.jsonl";
     dup_rate := Finite (1 # 100); oo_rate := Finite (2 # 100) |}.

(** A file in a directory. *)
Definition sample_args_file : Namespace :=
  {| events := 2; max_events_per_session := 3; sleep_ms := 0; out := "data/events.jsonl";
     dup_rate := Finite (1 # 100); oo_rate := Finite (2 # 100) |}.

(** Values outside the documented ranges. *)
Definition sample_args_negative : Namespace :=
  {| events := -5; max_events_per_session := 12; sleep_ms := 0; out := "-";
     dup_rate := Finite (1 # 100); oo_rate := Finite (2 # 100) |}.

Definition sample_args_rates : Namespace :=
  {| events := 2; max_events_per_session := 12; sleep_ms := 0; out := "-";
     dup_rate := Finite (3 # 2); oo_rate := Finite (-1) |}.

(** A pause that no platform accepts. *)
Definition sample_args_huge : Namespace :=
  {| events := 3; max_events_per_session := 2; sleep_ms := 10 ^ 30; out := "-";
     dup_rate := Finite (1 # 2); oo_rate := Finite (1 # 2) |}.

(** The loop state and the world after one emission from the sample
    world. *)
Definition sample_first_emission : outcome LoopState :=
  emit_one sample_args false sample_event initial_state sample_world.

Definition sample_state1 : LoopState :=
  match sample_first_emission with Ok st _ => st | Raised _ _ => initial_state end.

Definition sample_world1 : World := world_of sample_first_emission.

(** The event with its timestamp replaced. *)
Definition with_event_ts (ts : string) (ev : ClickstreamEvent) : ClickstreamEvent :=
  {| event_id := event_id ev; event_ts := ts; user_id := user_id ev;
     session_id := session_id ev; event_type := event_type ev; page := page ev;
     referrer := referrer ev; device := device ev; geo := geo ev;
     attributes := attributes ev |}.

(** What holds between two passes when [dup_rate] is 1.0: the lines added
    so far are all the same, and the window names nothing but payloads with
    that line. *)
Definition all_same_inv (out_fh : bool) (w0 : World) (st : LoopState) (w : World)
  : Prop :=
  exists lines,
    dest_lines out_fh w = (dest_lines out_fh w0 ++ lines)%list /\
    (forall l l', In l lines -> In l' lines -> l = l') /\
    Forall (fun r => In (payload_line r w) lines) (previously_emitted st) /\
    (previously_emitted st = [] -> lines = []) /\
    Forall (fun r => r < length (heap w)) (previously_emitted st).

(** ** Vocabulary of the further properties *)

Definition slept_inv (args : Namespace) (w0 : World) (st : LoopState) (w : World)
  : Prop :=
  slept_ms w = (slept_ms w0 + pause args * emitted st)%Z.

(** Five milliseconds of pause after each of three records. *)
Definition sample_args_paced : Namespace :=
  {| events := 3; max_events_per_session := 2; sleep_ms := 5; out := "-";
     dup_rate := Finite (1 # 2); oo_rate := Finite (1 # 2) |}.

(** What holds between two passes: the lines of the payloads in the window
    are the last lines written, in the order of writing. *)
Definition recent_inv (out_fh : bool) (w0 : World) (st : LoopState) (w : World)
  : Prop :=
  exists lines,
    dest_lines out_fh w = (dest_lines out_fh w0 ++ lines)%list /\
    length (previously_emitted st) <= length lines /\
    map (fun r => payload_line r w) (previously_emitted st)
      = drop (length lines - length (previously_emitted st)) lines /\
    Forall (fun r => r < length (heap w)) (previously_emitted st).

(** How a rate decides its branch without looking at the draw: a rate that
    is NaN, negative or zero never lets the branch be taken, a rate of one
    or more always does; [None] when the draw decides. *)
Definition rate_class (r : pyfloat) : option bool :=
  match r with
  | NaN | NegInf => Some false
  | PosInf => Some true
  | Finite q =>
      if Qle_bool q 0 then Some false
      else if Qle_bool 1 q then Some true
      else None
  end.

(** What holds between two passes when no record is duplicated: the lines
    written are the texts of the payloads allocated, one for one. *)
Definition clean_inv (out_fh : bool) (w0 : World) (st : LoopState) (w : World)
  : Prop :=
  exists payloads,
    heap w = (heap w0 ++ payloads)%list /\
    dest_lines out_fh w =
      (dest_lines out_fh w0 ++ map (fun d => json_dumps (JDict d)) payloads)%list.

(** Both rates switched off, three records, standard output. *)
Definition sample_args_clean : Namespace :=
  {| events := 3; max_events_per_session := 2; sleep_ms := 0; out := "-";
     dup_rate := Finite 0; oo_rate := NaN |}.

(** ** The shape of an event *)

(** The value of the next [_randbelow(n)] when the tape stands at [pos]. *)
Definition draw_at (e : Env) (pos n : nat) : nat :=
  N.to_nat (rand_raw e pos mod N.of_nat n).

(** The number of draws that line 49 makes. *)
Definition type_draws (ty : option string) : nat :=
  match ty with
  | Some (String _ _) => 0
  | _ => 1
  end.

(** Line 49: the type of the event that [make_event] builds from world
    [w]: the argument when it is a non-empty string, and otherwise the
    member of [EVENT_TYPES] that the first draw selects. *)
Definition chosen_type (ty : option string) (w : World) : string :=
  match ty with
  | Some (String c r) => String c r
  | _ => nth (draw_at (env w) (rand_pos w) (length EVENT_TYPES)) EVENT_TYPES "page_view"
  end.

(** The world after line 49. *)
Definition after_type (ty : option string) (w : World) : World :=
  match ty with
  | Some (String _ _) => w
  | _ => with_rand_pos (S (rand_pos w)) w
  end.

(** Lines 51-53: the page of that event.  The draw in [PAGES] is always
    made; for a commerce type its result is replaced by a second draw, in
    the three commerce pages. *)
Definition chosen_page (ty : option string) (w : World) : string :=
  let pos := type_draws ty + rand_pos w in
  if is_commerce (chosen_type ty w)
  then nth (draw_at (env w) (S pos) (length COMMERCE_PAGES)) COMMERCE_PAGES "/product"
  else nth (draw_at (env w) pos (length PAGES)) PAGES "/".

(** Only the tape of module [random] has moved. *)
Definition anchored (w' w : World) : Prop :=
  io_of w' = io_of w /\ uuid_pos w' = uuid_pos w /\
  city_pos w' = city_pos w /\ clock_pos w' = clock_pos w.

(** [str(u)] for the UUID with hexadecimal digits [h]. *)
Definition uuid_text (h : string) : string :=
  substring 0 8 h +:+ "-" +:+ substring 8 4 h +:+ "-" +:+ substring 12 4 h
  +:+ "-" +:+ substring 16 4 h +:+ "-" +:+ substring 20 12 h.

Definition is_lower_hex (c : ascii) : bool :=
  let n := nat_of_ascii c in
  (Nat.leb 48 n && Nat.leb n 57) || (Nat.leb 97 n && Nat.leb n 102).

Fixpoint all_lower_hex (s : string) : bool :=
  match s with
  | "" => true
  | String c r => is_lower_hex c && all_lower_hex r
  end.

(** [k] hexadecimal digits, letters in lower case. *)
Definition hex_string (k : nat) (s : string) : Prop :=
  String.length s = k /\ all_lower_hex s = true.

Definition REFERRERS : list string :=
  ["direct"; "google"; "newsletter"; "twitter"; "linkedin"; "partner_site"].

(** The four members that lines 77-84 add; the price is in hundredths. *)
Definition commerce_part (d : dict) : Prop :=
  exists sku price currency quantity,
    (1000 <= sku <= 9999)%Z /\ (500 <= price <= 30000)%Z /\
    In currency ["EUR"; "USD"; "GBP"] /\ (1 <= quantity <= 3)%Z /\
    d = [ ("product_id", JStr ("sku_" +:+ str_of_Z sku));
          ("price", JFloat2 price);
          ("currency", JStr currency);
          ("quantity", JInt quantity) ].

(** The two members that lines 87-92 add, the order id from UUID number
    [iu] of environment [en]. *)
Definition purchase_part (en : Env) (iu : nat) (d : dict) : Prop :=
  exists method,
    In method ["card"; "paypal"; "klarna"] /\
    d = [ ("order_id", JStr ("ord_" +:+ substring 0 12 (uuid_hex en iu)));
          ("payment_method", JStr method) ].

(** Every field but the timestamp, the two identifiers and the type, for
    an event built when the UUID tape of [en] stood at [iu] and the tape of
    city names at [ic]: where each value comes from, and which members the
    attributes have for the type.  A purchase takes the UUID of its order
    first and the UUID of the event next. *)
Definition event_body (en : Env) (iu ic : nat) (e : ClickstreamEvent) : Prop :=
  event_id e =
    uuid_text (uuid_hex en (if String.eqb (event_type e) "purchase" then S iu else iu)) /\
  In (page e) (if is_commerce (event_type e) then COMMERCE_PAGES else PAGES) /\
  In (referrer e) REFERRERS /\
  (exists os browser,
      In os OSES /\ In browser BROWSERS /\
      device e = [("os", JStr os); ("browser", JStr browser)]) /\
  (exists country,
      In country COUNTRIES /\
      geo e = [("country", JStr country); ("city", JStr (faker_city en ic))]) /\
  (exists variant campaign commerce purchase,
      In variant ["A"; "B"] /\
      In campaign ["brand"; "summer_sale"; "retargeting"; "none"] /\
      attributes e =
        ([("ab_test_variant", JStr variant); ("utm_campaign", JStr campaign)]
         ++ commerce ++ purchase)%list /\
      (if is_commerce (event_type e) then commerce_part commerce else commerce = []) /\
      (if String.eqb (event_type e) "purchase"
       then purchase_part en iu purchase else purchase = [])).

(** The first [k] digits of one of the UUIDs of [en]. *)
Definition uuid_prefix (en : Env) (k : nat) (h : string) : Prop :=
  hex_string k h /\ exists n, h = substring 0 k (uuid_hex en n).

(** An event as the main loop writes it in environment [en]: the
    identifiers of [new_user_id] and [new_session_id], one of the three
    types, a timestamp that is a clock reading, shifted or not by the
    out-of-order step, and the other fields as [make_event] builds them. *)
Definition emitted_event (en : Env) (e : ClickstreamEvent) : Prop :=
  (exists h, uuid_prefix en 16 h /\ user_id e = "usr_" +:+ h) /\
  (exists h, uuid_prefix en 16 h /\ session_id e = "sess_" +:+ h) /\
  In (event_type e) EVENT_TYPES /\
  (exists it d,
      (d = 0 \/ 60 <= d <= 3600)%Z /\
      event_ts e = isoformat_ms (wall_clock en it - d * 1000000)) /\
  (exists iu ic, event_body en iu ic e).

(** The text of the dictionary of such an event. *)
Definition record_line (en : Env) (l : string) : Prop :=
  exists e, l = json_dumps (JDict (asdict e)) /\ emitted_event en e.

(** What holds between two passes: the window names dictionaries of events
    of the loop, and the lines written are their texts. *)
Definition schema_inv (out_fh : bool) (w0 : World) (st : LoopState) (w : World)
  : Prop :=
  Forall (fun r => exists e, heap w !! r = Some (asdict e) /\ emitted_event (env w0) e)
         (previously_emitted st) /\
  exists lines,
    dest_lines out_fh w = (dest_lines out_fh w0 ++ lines)%list /\
    Forall (record_line (env w0)) lines.

(** An event of a session of user [u] with session id [s], as
    [generate_session_events] builds it in environment [en]. *)
Definition session_event (en : Env) (u s : string) (e : ClickstreamEvent) : Prop :=
  user_id e = u /\ session_id e = s /\
  In (event_type e) EVENT_TYPES /\
  (exists it, event_ts e = isoformat_ms (wall_clock en it)) /\
  (exists iu ic, event_body en iu ic e).

(** A state and a world as they are after 5000 emissions without
    duplicates: the window is full, every payload is stored and its line is
    written. *)
Definition sample_state_full : LoopState :=
  {| emitted := 5000; previously_emitted := seq 0 5000 |}.

Definition sample_world_full : World :=
  with_heap (repeat (asdict sample_event) 5000)
    (with_stdout (repeat (json_dumps (JDict (asdict sample_event))) 5000) sample_world).

(** * Properties *)

(** ** Reasoning about computations *)

Lemma returns_ret {A} (a : A) w (Q : A -> World -> Prop) :
  Q a w -> returns (ret a) w Q.
Proof. exact (fun H => H). Qed.

Lemma returns_bind {A B} (m : Py A) (k : A -> Py B) w (Q : B -> World -> Prop) :
  returns m w (fun a w1 => returns (k a) w1 Q) -> returns (bind m k) w Q.
Proof. unfold returns, bind. destruct (m w); auto. Qed.

Lemma returns_mono {A} (m : Py A) w (P Q : A -> World -> Prop) :
  returns m w P -> (forall a w', P a w' -> Q a w') -> returns m w Q.
Proof. unfold returns. destruct (m w); auto. Qed.

Lemma returns_exists {A} (m : Py A) w (Q : A -> World -> Prop) :
  returns m w Q <-> exists a w', m w = Ok a w' /\ Q a w'.
Proof.
  unfold returns. split.
  - destruct (m w) as [a w'|]; [eauto | tauto].
  - intros (a & w' & -> & H). exact H.
Qed.

Lemma returns_eq {A} (m : Py A) w a w' (Q : A -> World -> Prop) :
  m w = Ok a w' -> Q a w' -> returns m w Q.
Proof. unfold returns. intros ->. auto. Qed.

Lemma returns_and {A} (m : Py A) w (P Q : A -> World -> Prop) :
  returns m w P -> returns m w Q -> returns m w (fun a w' => P a w' /\ Q a w').
Proof. unfold returns. destruct (m w); tauto. Qed.

Lemma mod_index_lt (r : N) (n : nat) : n <> 0 -> N.to_nat (r mod N.of_nat n) < n.
Proof.
  intros Hn. pose proof (N.mod_upper_bound r (N.of_nat n)). lia.
Qed.

Lemma random_choice_eq {A} (l : list A) (d : A) w :
  l <> [] ->
  random_choice l w =
    Ok (nth (index_draw (length l) w) l d) (with_rand_pos (S (rand_pos w)) w).
Proof.
  destruct l as [|x l']; [congruence|]. intros _.
  unfold random_choice, randbelow, bind, next_raw, ret, index_draw.
  f_equal. apply nth_indep. apply mod_index_lt. discriminate.
Qed.

Lemma returns_choice {A} (l : list A) w (Q : A -> World -> Prop) :
  l <> [] ->
  (forall x, In x l -> Q x (with_rand_pos (S (rand_pos w)) w)) ->
  returns (random_choice l) w Q.
Proof.
  intros Hl HQ. destruct l as [|d l'] eqn:E; [congruence|].
  eapply returns_eq; [apply (random_choice_eq _ d); discriminate|].
  apply HQ, nth_In, mod_index_lt. discriminate.
Qed.

Lemma randint_eq (a b : Z) w :
  (a <= b)%Z ->
  randint a b w =
    Ok (a + Z.of_N (rand_raw (env w) (rand_pos w) mod Z.to_N (b + 1 - a)))%Z
       (with_rand_pos (S (rand_pos w)) w).
Proof.
  intros Hab. unfold randint.
  destruct (Z.leb_spec (b + 1 - a) 0); [lia | reflexivity].
Qed.

Lemma randint_empty (a b : Z) w : (b < a)%Z -> randint a b w = Raised ValueError w.
Proof.
  intros Hab. unfold randint.
  destruct (Z.leb_spec (b + 1 - a) 0); [reflexivity | lia].
Qed.

Lemma returns_randint (a b : Z) w (Q : Z -> World -> Prop) :
  (a <= b)%Z ->
  (forall z, (a <= z <= b)%Z -> Q z (with_rand_pos (S (rand_pos w)) w)) ->
  returns (randint a b) w Q.
Proof.
  intros Hab HQ. eapply returns_eq; [apply randint_eq, Hab|].
  apply HQ.
  assert (Hn : Z.to_N (b + 1 - a) <> 0%N) by lia.
  pose proof (N.mod_upper_bound (rand_raw (env w) (rand_pos w)) _ Hn) as Hlt.
  apply N2Z.inj_lt in Hlt. rewrite Z2N.id in Hlt by lia.
  pose proof (N2Z.is_nonneg (rand_raw (env w) (rand_pos w) mod Z.to_N (b + 1 - a))).
  lia.
Qed.

Lemma random_random_eq w :
  random_random w = Ok (unit_draw w) (with_rand_pos (S (rand_pos w)) w).
Proof. reflexivity. Qed.

(** A draw of [random.random()] lies in [[0, 1)]. *)
Lemma unit_draw_range w : (0 <= unit_draw w)%Q /\ (unit_draw w < 1)%Q.
Proof.
  unfold unit_draw, Qle, Qlt. cbn [Qnum Qden].
  assert (Hlt : (rand_raw (env w) (rand_pos w) mod Npos two53 < Npos two53)%N)
    by (apply N.mod_upper_bound; discriminate).
  apply N2Z.inj_lt in Hlt. change (Z.of_N (Npos two53)) with (Zpos two53) in Hlt.
  pose proof (N2Z.is_nonneg (rand_raw (env w) (rand_pos w) mod Npos two53)).
  split; lia.
Qed.

(** ** Float rounding *)

Lemma rne_div_bounds (a b : Z) :
  (0 < b)%Z -> (2 * a - b <= 2 * b * rne_div a b <= 2 * a + b)%Z.
Proof.
  intros Hb. unfold rne_div.
  pose proof (Z.div_mod a b ltac:(lia)) as Hdm.
  pose proof (Z.mod_pos_bound a b Hb) as Hr.
  destruct (Z.ltb_spec (2 * (a mod b)) b); [nia|].
  destruct (Z.ltb_spec b (2 * (a mod b))); [nia|].
  destruct (Z.even (a / b)); nia.
Qed.

(** Before the exponent is adjusted, the scaled value is at least [2^52]. *)
Lemma fl_pos_scale (n d : Z) :
  (0 < n)%Z -> (0 < d)%Z ->
  let e0 := (Z.log2 n - Z.log2 d - 53)%Z in
  if (0 <=? e0)%Z then (2 ^ 52 * (d * 2 ^ e0) <= n)%Z
  else (2 ^ 52 * d <= n * 2 ^ (- e0))%Z.
Proof.
  intros Hn Hd e0.
  pose proof (Z.log2_spec n Hn) as [Hn1 Hn2].
  pose proof (Z.log2_spec d Hd) as [Hd1 Hd2].
  pose proof (Z.log2_nonneg n) as Ha. pose proof (Z.log2_nonneg d) as Hb.
  set (a := Z.log2 n) in *. set (b := Z.log2 d) in *.
  destruct (Z.leb_spec 0 e0) as [He|He].
  - assert (E : (2 ^ a = 2 ^ 52 * (2 ^ (b + 1) * 2 ^ e0))%Z).
    { rewrite <- !Z.pow_add_r by lia. f_equal. lia. }
    assert (0 < 2 ^ e0)%Z by (apply Z.pow_pos_nonneg; lia).
    replace (Z.succ b) with (b + 1)%Z in Hd2 by lia.
    nia.
  - assert (E : (2 ^ a * 2 ^ (- e0) = 2 ^ 52 * 2 ^ (b + 1))%Z).
    { rewrite <- !Z.pow_add_r by lia. f_equal. lia. }
    assert (0 < 2 ^ (- e0))%Z by (apply Z.pow_pos_nonneg; lia).
    replace (Z.succ b) with (b + 1)%Z in Hd2 by lia.
    nia.
Qed.

(** A float operation is off by at most one part in [2^53]. *)
Lemma fl_pos_bounds (n d : positive) :
  ((Zpos n # d) * (1 - (1 # two53)) <= fl_pos (Zpos n) (Zpos d))%Q /\
  (fl_pos (Zpos n) (Zpos d) <= (Zpos n # d) * (1 + (1 # two53)))%Q.
Proof.
  pose proof (fl_pos_scale (Zpos n) (Zpos d) ltac:(lia) ltac:(lia)) as Hs.
  cbv zeta in Hs. unfold fl_pos.
  set (e0 := (Z.log2 (Zpos n) - Z.log2 (Zpos d) - 53)%Z) in *. clearbody e0.
  set (over := if (0 <=? e0)%Z then _ else _).
  assert (Hnorm : let e := if over then (e0 + 1)%Z else e0 in
                  if (0 <=? e)%Z then (2 ^ 52 * (Zpos d * 2 ^ e) <= Zpos n)%Z
                  else (2 ^ 52 * Zpos d <= Zpos n * 2 ^ (- e))%Z).
  { cbv zeta. subst over. destruct (Z.leb_spec 0 e0) as [He|He].
    - destruct (Z.leb_spec (2 ^ 53 * (Zpos d * 2 ^ e0)) (Zpos n)) as [Ho|Ho].
      + destruct (Z.leb_spec 0 (e0 + 1)); [|lia].
        rewrite Z.pow_add_r by lia. change (2 ^ 53)%Z with (2 ^ 52 * 2)%Z in Ho.
        change (2 ^ 1)%Z with 2%Z.
        set (s := (2 ^ e0)%Z) in *. clearbody s. lia.
      + destruct (Z.leb_spec 0 e0); [exact Hs | lia].
    - destruct (Z.leb_spec (2 ^ 53 * Zpos d) (Zpos n * 2 ^ (- e0))) as [Ho|Ho].
      + destruct (Z.leb_spec 0 (e0 + 1)) as [H1|H1].
        * assert (e0 = -1)%Z by lia. subst e0. replace (-1 + 1)%Z with 0%Z by lia.
          change (2 ^ 0)%Z with 1%Z.
          replace (- -1)%Z with 1%Z in Ho by lia. change (2 ^ 1)%Z with 2%Z in Ho.
          change (2 ^ 53)%Z with (2 ^ 52 * 2)%Z in Ho. lia.
        * replace (- e0)%Z with (- (e0 + 1) + 1)%Z in Ho by lia.
          rewrite Z.pow_add_r in Ho by lia. change (2 ^ 1)%Z with 2%Z in Ho.
          change (2 ^ 53)%Z with (2 ^ 52 * 2)%Z in Ho.
          set (s := (2 ^ (- (e0 + 1)))%Z) in *. clearbody s. lia.
      + destruct (Z.leb_spec 0 e0); [lia | exact Hs]. }
  cbv zeta in Hnorm. clearbody over. clear Hs.
  set (e := if over then (e0 + 1)%Z else e0) in *. clearbody e. clear e0 over.
  destruct (Z.leb_spec 0 e) as [He|He].
  - assert (Hp : (0 < 2 ^ e)%Z) by (apply Z.pow_pos_nonneg; lia).
    pose proof (rne_div_bounds (Zpos n) (Zpos d * 2 ^ e) ltac:(nia)) as Hm.
    set (m := rne_div (Zpos n) (Zpos d * 2 ^ e)) in *. clearbody m.
    set (s := (2 ^ e)%Z) in *. clearbody s.
    unfold Qle, two53. cbn [Qnum Qden Qmult Qminus Qplus Qopp inject_Z].
    change (2 ^ 52)%Z with 4503599627370496%Z in Hnorm.
    split; nia.
  - assert (Hp : (0 < 2 ^ (- e))%Z) by (apply Z.pow_pos_nonneg; lia).
    pose proof (rne_div_bounds (Zpos n * 2 ^ (- e)) (Zpos d) ltac:(lia)) as Hm.
    set (m := rne_div (Zpos n * 2 ^ (- e)) (Zpos d)) in *. clearbody m.
    set (s := (2 ^ (- e))%Z) in *. clearbody s.
    unfold Qle, two53. cbn [Qnum Qden Qmult Qminus Qplus Qopp inject_Z].
    rewrite !Z2Pos.id by lia.
    change (2 ^ 52)%Z with 4503599627370496%Z in Hnorm.
    split; nia.
Qed.

Lemma fl_bounds (q : Q) :
  (0 <= q)%Q ->
  (q * (1 - (1 # two53)) <= fl q)%Q /\ (fl q <= q * (1 + (1 # two53)))%Q.
Proof.
  destruct q as [n d]. unfold fl. cbn [Qnum Qden].
  destruct n as [|n|n]; intros Hq.
  - split; unfold Qle; cbn; lia.
  - apply fl_pos_bounds.
  - unfold Qle in Hq. cbn in Hq. lia.
Qed.

Lemma rne_div_Q (x : Q) :
  (100 * x - (1 # 2) <= inject_Z (rne_div (100 * Qnum x) (Zpos (Qden x))))%Q /\
  (inject_Z (rne_div (100 * Qnum x) (Zpos (Qden x))) <= 100 * x + (1 # 2))%Q.
Proof.
  destruct x as [n d]. cbn [Qnum Qden].
  pose proof (rne_div_bounds (100 * n) (Zpos d) ltac:(lia)) as H.
  set (c := rne_div (100 * n) (Zpos d)) in *. clearbody c.
  unfold Qle. cbn [Qnum Qden Qmult Qminus Qplus Qopp inject_Z]. split; nia.
Qed.

(** Two roundings of [5 + 295 * u] and the rounding to hundredths leave
    the price between 5.00 and 300.00. *)
Lemma price_range (u : Q) :
  (0 <= u)%Q -> (u < 1)%Q ->
  let x := fl (5 + fl (295 * u)) in
  (500 <= rne_div (100 * Qnum x) (Zpos (Qden x)) <= 30000)%Z.
Proof.
  intros Hu0 Hu1 x.
  destruct (fl_bounds (295 * u) ltac:(lra)) as [L1 U1].
  set (x1 := fl (295 * u)) in *. clearbody x1. unfold two53 in L1, U1.
  assert (H1 : (0 <= x1)%Q) by lra.
  destruct (fl_bounds (5 + x1) ltac:(lra)) as [L2 U2]. fold x in L2, U2.
  unfold two53 in L2, U2.
  destruct (rne_div_Q x) as [L3 U3].
  set (c := rne_div (100 * Qnum x) (Zpos (Qden x))) in *. clearbody c. clearbody x.
  assert (Hc : ((499 # 1) < inject_Z c)%Q /\ (inject_Z c < (30001 # 1))%Q) by (split; lra).
  unfold Qlt in Hc. cbn [Qnum Qden inject_Z] in Hc. lia.
Qed.

(** ** The event synthesizer *)

Ltac step_choice :=
  apply returns_bind, returns_choice; [discriminate | intros ? ?].

Ltac step_prim :=
  apply returns_bind; eapply returns_eq; [reflexivity | cbv beta].

Lemma returns_pick_etype ty w :
  returns (pick_etype ty) w (fun t w' =>
    io_of w' = io_of w /\
    match ty with
    | Some (String c r) => t = String c r
    | _ => In t EVENT_TYPES
    end).
Proof.
  destruct ty as [[|c r]|]; cbn [pick_etype].
  - apply returns_choice; [discriminate | auto].
  - apply returns_ret. auto.
  - apply returns_choice; [discriminate | auto].
Qed.

Lemma returns_commerce_attrs w :
  returns commerce_attrs w (fun d w' =>
    io_of w' = io_of w /\
    exists sku price currency quantity,
      (1000 <= sku <= 9999)%Z /\ (1 <= quantity <= 3)%Z /\
      d = [ ("product_id", JStr ("sku_" +:+ str_of_Z sku));
            ("price", JFloat2 price);
            ("currency", JStr currency);
            ("quantity", JInt quantity) ]).
Proof.
  unfold commerce_attrs.
  apply returns_bind, returns_randint; [lia | intros sku Hsku].
  step_prim.
  step_choice.
  apply returns_bind, returns_randint; [lia | intros q Hq].
  apply returns_ret. split; [reflexivity | eauto 10].
Qed.

Lemma returns_purchase_attrs w :
  returns purchase_attrs w (fun d w' =>
    io_of w' = io_of w /\
    exists order method,
      d = [ ("order_id", JStr order); ("payment_method", JStr method) ]).
Proof.
  unfold purchase_attrs.
  step_prim. step_choice.
  apply returns_ret. split; [reflexivity | eauto].
Qed.

Lemma is_commerce_cases t :
  (t = "purchase" /\ is_commerce t = true) \/
  (t = "add_to_cart" /\ is_commerce t = true /\ String.eqb t "purchase" = false) \/
  (is_commerce t = false /\ String.eqb t "purchase" = false /\
   String.eqb t "add_to_cart" = false).
Proof.
  unfold is_commerce.
  destruct (String.eqb_spec t "purchase") as [->|Hp]; [left; auto|].
  destruct (String.eqb_spec t "add_to_cart") as [->|Ha]; [right; left; auto|].
  right; right; auto.
Qed.

(** What [make_event] returns: it always succeeds, touches nothing but the
    tapes, and the page and the attribute keys follow the event type. *)
Lemma make_event_spec u s ty w :
  returns (make_event u s ty) w (fun e w' =>
    io_of w' = io_of w /\
    user_id e = u /\ session_id e = s /\
    match ty with
    | Some (String c r) => event_type e = String c r
    | _ => In (event_type e) EVENT_TYPES
    end /\
    In (page e) (if is_commerce (event_type e) then COMMERCE_PAGES else PAGES) /\
    dict_keys (attributes e) =
      if String.eqb (event_type e) "purchase" then PURCHASE_KEYS
      else if String.eqb (event_type e) "add_to_cart" then ADD_TO_CART_KEYS
      else ["ab_test_variant"; "utm_campaign"]).
Proof.
  unfold make_event.
  apply returns_bind.
  eapply returns_mono; [apply returns_pick_etype|].
  intros t w1 [Hio Ht]. cbv beta.
  apply returns_bind, returns_choice; [discriminate | intros page0 Hpage0].
  apply returns_bind.
  eapply (returns_mono _ _ (fun p w' =>
            io_of w' = io_of w1 /\
            In p (if is_commerce t then COMMERCE_PAGES else PAGES))).
  { destruct (is_commerce t).
    - apply returns_choice; [discriminate | auto].
    - apply returns_ret. auto. }
  intros pg w2 [Hio2 Hpg]. cbv beta.
  do 4 step_choice. step_prim. do 2 step_choice.
  match goal with |- returns _ ?w _ => set (w3 := w) end.
  assert (Hio3 : io_of w3 = io_of w) by (rewrite <- Hio, <- Hio2; reflexivity).
  clearbody w3.
  destruct (is_commerce_cases t) as [[-> Hc] | [(-> & Hc & Hp) | (Hc & Hp & Ha)]].
  - cbn [is_commerce String.eqb Ascii.eqb Bool.eqb orb andb].
    apply returns_bind, returns_bind.
    eapply returns_mono; [apply returns_commerce_attrs|].
    intros d1 w4 (Hio4 & sku & price & cur & q & _ & _ & ->).
    apply returns_ret, returns_bind, returns_bind.
    eapply returns_mono; [apply returns_purchase_attrs|].
    intros d2 w5 (Hio5 & order & method & ->).
    apply returns_ret. do 2 step_prim. apply returns_ret.
    cbn [event_type user_id session_id page attributes].
    repeat split; try assumption; try (rewrite Hc in Hpg; exact Hpg).
    change (io_of w5 = io_of w). congruence.
  - cbn [is_commerce String.eqb Ascii.eqb Bool.eqb orb andb].
    apply returns_bind, returns_bind.
    eapply returns_mono; [apply returns_commerce_attrs|].
    intros d1 w4 (Hio4 & sku & price & cur & q & _ & _ & ->).
    apply returns_ret, returns_bind, returns_ret.
    do 2 step_prim. apply returns_ret.
    cbn [event_type user_id session_id page attributes].
    repeat split; try assumption; try (rewrite Hc in Hpg; exact Hpg).
    change (io_of w4 = io_of w). congruence.
  - rewrite Hc, Hp.
    apply returns_bind, returns_ret, returns_bind, returns_ret.
    do 2 step_prim. apply returns_ret.
    cbn [event_type user_id session_id page attributes].
    rewrite Hc, Hp, Ha.
    repeat split; try assumption.
    rewrite Hc in Hpg. exact Hpg.
Qed.

Lemma is_commerce_iff t :
  is_commerce t = true <-> t = "add_to_cart" \/ t = "purchase".
Proof.
  unfold is_commerce. rewrite orb_true_iff, !String.eqb_eq. tauto.
Qed.

Lemma pick_etype_eq ty w :
  pick_etype ty w = Ok (chosen_type ty w) (after_type ty w).
Proof.
  destruct ty as [[|c r]|]; cbn [pick_etype chosen_type after_type];
    [apply random_choice_eq; discriminate | reflexivity
     | apply random_choice_eq; discriminate].
Qed.

Lemma after_type_anchored ty w :
  anchored (after_type ty w) w /\
  rand_pos (after_type ty w) = type_draws ty + rand_pos w.
Proof. destruct ty as [[|c r]|]; repeat split. Qed.

Lemma anchored_trans w1 w2 w3 : anchored w3 w2 -> anchored w2 w1 -> anchored w3 w1.
Proof. unfold anchored. intros (-> & -> & -> & ->) H. exact H. Qed.

Lemma anchored_env w' w : anchored w' w -> env w' = env w.
Proof. unfold anchored, io_of. intros (H & _). now injection H. Qed.

Lemma returns_uniform_price w :
  returns uniform_price w (fun p w' =>
    anchored w' w /\ (500 <= p <= 30000)%Z).
Proof.
  unfold uniform_price. step_prim. apply returns_ret.
  split; [repeat split|].
  destruct (unit_draw_range w). now apply price_range.
Qed.

Lemma returns_commerce_part w :
  returns commerce_attrs w (fun d w' => anchored w' w /\ commerce_part d).
Proof.
  unfold commerce_attrs.
  apply returns_bind, returns_randint; [lia | intros sku Hsku].
  apply returns_bind.
  eapply returns_mono; [apply returns_uniform_price|].
  intros price w1 [Ha1 Hprice]. cbv beta.
  apply returns_bind, returns_choice; [discriminate | intros cur Hcur].
  apply returns_bind, returns_randint; [lia | intros q Hq].
  apply returns_ret. split.
  - eapply anchored_trans; [|repeat split]. exact Ha1.
  - exists sku, price, cur, q. auto.
Qed.

(** What [make_event] returns: it always succeeds, moves nothing but the
    tapes, and every field is pinned to the arguments, to the lists of the
    source and to the tapes. *)
Lemma make_event_exact u s ty w :
  returns (make_event u s ty) w (fun e w' =>
    io_of w' = io_of w /\
    user_id e = u /\ session_id e = s /\
    event_type e = chosen_type ty w /\
    page e = chosen_page ty w /\
    event_ts e = isoformat_ms (wall_clock (env w) (clock_pos w)) /\
    event_body (env w) (uuid_pos w) (city_pos w) e).
Proof.
  unfold make_event.
  apply returns_bind. eapply returns_eq; [apply pick_etype_eq|]. cbv beta.
  destruct (after_type_anchored ty w) as [Ha1 Hr1].
  unfold chosen_page.
  set (t := chosen_type ty w). set (w1 := after_type ty w) in *. clearbody t w1.
  apply returns_bind. eapply returns_eq; [apply (random_choice_eq PAGES "/"); discriminate|].
  cbv beta. unfold index_draw at 1.
  replace (rand_raw (env w1) (rand_pos w1)) with (rand_raw (env w) (type_draws ty + rand_pos w))
    by (now rewrite (anchored_env _ _ Ha1), Hr1).
  fold (draw_at (env w) (type_draws ty + rand_pos w) (length PAGES)).
  set (page0 := nth (draw_at (env w) (type_draws ty + rand_pos w) (length PAGES)) PAGES "/").
  assert (Hpage0 : In page0 PAGES) by (apply nth_In, mod_index_lt; discriminate).
  apply returns_bind.
  eapply (returns_mono _ _ (fun p w' =>
            anchored w' w /\
            p = (if is_commerce t
                 then nth (draw_at (env w) (S (type_draws ty + rand_pos w))
                             (length COMMERCE_PAGES)) COMMERCE_PAGES "/product"
                 else page0) /\
            In p (if is_commerce t then COMMERCE_PAGES else PAGES))).
  { destruct (is_commerce t).
    - eapply returns_eq; [apply (random_choice_eq COMMERCE_PAGES "/product"); discriminate|].
      split; [eapply anchored_trans; [|exact Ha1]; repeat split|].
      unfold index_draw. cbn [env rand_pos with_rand_pos].
      rewrite (anchored_env _ _ Ha1), Hr1. fold (draw_at (env w)
        (S (type_draws ty + rand_pos w)) (length COMMERCE_PAGES)).
      split; [reflexivity | apply nth_In, mod_index_lt; discriminate].
    - apply returns_ret. split; [eapply anchored_trans; [|exact Ha1]; repeat split|].
      auto. }
  intros pg w2 (Ha2 & Hpg & Hpgin). cbv beta. clearbody page0. clear Hpage0.
  apply returns_bind, returns_choice; [discriminate | intros rf Hrf].
  apply returns_bind, returns_choice; [discriminate | intros os Hos].
  apply returns_bind, returns_choice; [discriminate | intros br Hbr].
  apply returns_bind, returns_choice; [discriminate | intros co Hco].
  step_prim.
  apply returns_bind, returns_choice; [discriminate | intros va Hva].
  apply returns_bind, returns_choice; [discriminate | intros ca Hca].
  cbn [env city_pos with_rand_pos with_city_pos].
  rewrite (anchored_env _ _ Ha2).
  replace (city_pos w2) with (city_pos w) by (now destruct Ha2 as (_ & _ & -> & _)).
  match goal with |- returns _ ?w _ => set (w3 := w) end.
  assert (Hio3 : io_of w3 = io_of w) by (destruct Ha2 as [<- _]; reflexivity).
  assert (Hu3 : uuid_pos w3 = uuid_pos w) by (destruct Ha2 as (_ & <- & _); reflexivity).
  assert (Hk3 : clock_pos w3 = clock_pos w) by (destruct Ha2 as (_ & _ & _ & <-); reflexivity).
  clearbody w3.
  assert (Hfin : forall (commerce purchase : dict) w5,
    io_of w5 = io_of w ->
    (if is_commerce t then commerce_part commerce else commerce = []) ->
    (if String.eqb t "purchase"
     then purchase_part (env w) (uuid_pos w) purchase else purchase = []) ->
    forall eid ts,
    eid = uuid_text (uuid_hex (env w)
            (if String.eqb t "purchase" then S (uuid_pos w) else uuid_pos w)) ->
    ts = isoformat_ms (wall_clock (env w) (clock_pos w)) ->
    let e := {| event_id := eid; event_ts := ts; user_id := u; session_id := s;
                event_type := t; page := pg; referrer := rf;
                device := [("os", JStr os); ("browser", JStr br)];
                geo := [("country", JStr co); ("city", JStr (faker_city (env w) (city_pos w)))];
                attributes :=
                  ([("ab_test_variant", JStr va); ("utm_campaign", JStr ca)]
                   ++ commerce ++ purchase)%list |} in
    io_of w5 = io_of w /\ user_id e = u /\ session_id e = s /\
    event_type e = t /\
    page e = (if is_commerce t
              then nth (draw_at (env w) (S (type_draws ty + rand_pos w))
                          (length COMMERCE_PAGES)) COMMERCE_PAGES "/product"
              else page0) /\
    event_ts e = isoformat_ms (wall_clock (env w) (clock_pos w)) /\
    event_body (env w) (uuid_pos w) (city_pos w) e).
  { intros commerce purchase w5 H5 Hc Hp eid ts Heid Hts e. subst e.
    unfold event_body.
    cbn [event_id event_ts user_id session_id event_type page referrer device geo
         attributes].
    split; [exact H5|]. split; [reflexivity|]. split; [reflexivity|].
    split; [reflexivity|]. split; [exact Hpg|]. split; [exact Hts|].
    split; [exact Heid|]. split; [exact Hpgin|]. split; [exact Hrf|].
    split; [exists os, br; auto|]. split; [exists co; auto|].
    exists va, ca, commerce, purchase. auto. }
  assert (He3 : env w3 = env w) by (unfold io_of in Hio3; now injection Hio3).
  destruct (is_commerce_cases t) as [[E Hc] | [(E & Hc & Hp) | (Hc & Hp & Ha)]].
  - rewrite Hc in *. assert (Hp : String.eqb t "purchase" = true) by (now subst t).
    rewrite Hp in *.
    apply returns_bind, returns_bind.
    eapply returns_mono; [apply returns_commerce_part|].
    intros d1 w4 (Ha4 & Hd1). pose proof Hd1 as (? & ? & ? & ? & _ & _ & _ & _ & ->).
    destruct Ha4 as (Hio4 & Hu4 & _ & Hk4).
    assert (He4 : env w4 = env w) by (unfold io_of in Hio4; injection Hio4; congruence).
    apply returns_ret, returns_bind, returns_bind. unfold purchase_attrs.
    apply returns_bind. eapply returns_eq; [reflexivity|]. cbv beta.
    apply returns_bind, returns_choice; [discriminate | intros method Hm].
    apply returns_ret, returns_ret. do 2 step_prim. apply returns_ret.
    cbn [env uuid_pos clock_pos with_rand_pos with_uuid_pos with_clock_pos].
    rewrite He4, Hu4, Hk4, Hu3, Hk3.
    refine (Hfin _ _ _ _ Hd1 _ _ _ eq_refl eq_refl);
      [change (io_of w4 = io_of w); congruence | exists method; auto].
  - rewrite Hc, Hp in *.
    apply returns_bind, returns_bind.
    eapply returns_mono; [apply returns_commerce_part|].
    intros d1 w4 (Ha4 & Hd1). pose proof Hd1 as (? & ? & ? & ? & _ & _ & _ & _ & ->).
    destruct Ha4 as (Hio4 & Hu4 & _ & Hk4).
    assert (He4 : env w4 = env w) by (unfold io_of in Hio4; injection Hio4; congruence).
    apply returns_ret, returns_bind, returns_ret.
    do 2 step_prim. apply returns_ret.
    cbn [env uuid_pos clock_pos with_rand_pos with_uuid_pos with_clock_pos].
    rewrite He4, Hu4, Hk4, Hu3, Hk3.
    refine (Hfin _ [] _ _ Hd1 eq_refl _ _ eq_refl eq_refl).
    change (io_of w4 = io_of w). congruence.
  - rewrite Hc, Hp in *.
    apply returns_bind, returns_ret, returns_bind, returns_ret.
    do 2 step_prim. apply returns_ret.
    cbn [env uuid_pos clock_pos with_rand_pos with_uuid_pos with_clock_pos].
    rewrite He3, Hu3, Hk3.
    refine (Hfin [] [] _ Hio3 eq_refl eq_refl _ _ eq_refl eq_refl).
Qed.

(** C8.  Every call of the event synthesizer returns an event.  Its type
    is the one that was asked for, or the one drawn in [EVENT_TYPES] when
    none was asked for.  When that type is add_to_cart or purchase the page
    is the result of the draw in the three commerce pages, and for every
    other type it is the result of the draw in the full set of pages. *)
Theorem commerce_events_use_commerce_pages u s ty w :
  exists e w',
    make_event u s ty w = Ok e w' /\
    event_type e = chosen_type ty w /\
    page e = chosen_page ty w /\
    In (page e) (if is_commerce (event_type e)
                 then ["/product"; "/cart"; "/checkout"] else PAGES).
Proof.
  pose proof (make_event_exact u s ty w) as H.
  apply returns_exists in H.
  destruct H as (e & w' & He & _ & _ & _ & Ht & Hp & _ & _ & Hin & _).
  exists e, w'. auto.
Qed.

(** C7.  Every call of the event synthesizer returns an event of the type
    that was asked for (or drawn, when none was asked for) whose attribute
    keys are, for a purchase, the keys of an add_to_cart event (variant,
    campaign, product_id, price, currency, quantity) followed by order_id
    and payment_method; the add_to_cart keys lack these two, so the
    purchase keys are a strict superset. *)
Theorem purchase_attributes_extend_add_to_cart u s ty w :
  exists e w',
    make_event u s ty w = Ok e w' /\
    event_type e = chosen_type ty w /\
    dict_keys (attributes e) =
      (if String.eqb (event_type e) "purchase"
       then (ADD_TO_CART_KEYS ++ ["order_id"; "payment_method"])%list
       else if String.eqb (event_type e) "add_to_cart" then ADD_TO_CART_KEYS
       else ["ab_test_variant"; "utm_campaign"]) /\
    ADD_TO_CART_KEYS =
      ["ab_test_variant"; "utm_campaign"; "product_id"; "price"; "currency"; "quantity"] /\
    ~ In "order_id" ADD_TO_CART_KEYS /\ ~ In "payment_method" ADD_TO_CART_KEYS.
Proof.
  pose proof (returns_and _ _ _ _ (make_event_spec u s ty w) (make_event_exact u s ty w)) as H.
  apply returns_exists in H.
  destruct H as (e & w' & He & (_ & _ & _ & _ & _ & Hk) & (_ & _ & _ & Ht & _)).
  exists e, w'. split; [exact He|]. split; [exact Ht|]. split; [exact Hk|].
  split; [reflexivity|]. split; cbn; intuition discriminate.
Qed.

(** ** The session generator *)

Lemma returns_weighted_event_type w :
  returns weighted_event_type w (fun t w' =>
    io_of w' = io_of w /\ In t ["page_view"; "add_to_cart"; "purchase"]).
Proof.
  unfold weighted_event_type. step_prim. apply returns_ret.
  split; [reflexivity|].
  destruct (float_lt _ _); [cbn; auto|]. destruct (float_lt _ _); cbn; auto.
Qed.

Lemma returns_session_tail k u s w :
  returns (session_tail k u s) w (fun evs w' =>
    io_of w' = io_of w /\ length evs = k /\
    Forall (fun e => user_id e = u /\ session_id e = s) evs).
Proof.
  revert w. induction k as [|k IH]; intros w; cbn [session_tail].
  - apply returns_ret. auto.
  - apply returns_bind.
    eapply returns_mono; [apply returns_weighted_event_type|].
    intros t w1 [Hio1 _]. apply returns_bind.
    eapply returns_mono; [apply make_event_spec|].
    intros e w2 (Hio2 & Hu & Hs & _). apply returns_bind.
    eapply returns_mono; [apply IH|].
    intros evs w3 (Hio3 & Hlen & Hall). apply returns_ret.
    split; [congruence|]. split; [cbn; lia|]. constructor; auto.
Qed.

Lemma generate_session_events_spec u m w :
  (1 <= m)%Z ->
  returns (generate_session_events u m) w (fun evs w' =>
    io_of w' = io_of w /\ session_ok u m evs).
Proof.
  intros Hm. unfold generate_session_events.
  step_prim.
  match goal with |- returns (bind (make_event _ ?s _) _) _ _ => set (sid := s) end.
  apply returns_bind.
  eapply returns_mono; [apply make_event_spec|].
  intros first w2 (Hio2 & Hu & Hs & Ht & _). cbv beta.
  apply returns_bind, returns_randint; [exact Hm | intros n Hn].
  apply returns_bind.
  eapply returns_mono; [apply returns_session_tail|].
  intros more w3 (Hio3 & Hlen & Hall). apply returns_ret.
  split; [rewrite Hio3; exact Hio2|].
  exists first, more. split; [reflexivity|]. split; [exact Ht|].
  split; [cbn [length]; lia|].
  constructor; [auto|]. rewrite Hs. exact Hall.
Qed.

Lemma generate_session_events_raises u m w :
  (m < 1)%Z ->
  exists w', generate_session_events u m w = Raised ValueError w' /\ io_of w' = io_of w.
Proof.
  intros Hm. unfold generate_session_events.
  unfold bind at 1. cbn [new_session_id bind uuid4_hex ret].
  unfold bind at 1.
  pose proof (make_event_spec u ("sess_" +:+ substring 0 16 (uuid_hex (env w) (uuid_pos w)))
                (Some "page_view") (with_uuid_pos (S (uuid_pos w)) w)) as H.
  apply returns_exists in H. destruct H as (e & w1 & -> & Hio & _).
  unfold bind. rewrite randint_empty by lia. eauto.
Qed.

(** C6.  A call of the session generator either returns a sequence whose
    first event has type page_view (this is what happens whenever the
    maximum length is at least 1), or raises ValueError because the maximum
    length is below 1; it never returns anything else. *)
Theorem session_starts_with_page_view u m w :
  match generate_session_events u m w with
  | Ok evs _ =>
      (1 <= m)%Z /\
      exists first rest, evs = first :: rest /\ event_type first = "page_view"
  | Raised e _ => e = ValueError /\ (m < 1)%Z
  end.
Proof.
  destruct (Z.le_gt_cases 1 m) as [Hm|Hm].
  - pose proof (generate_session_events_spec u m w Hm) as H.
    apply returns_exists in H.
    destruct H as (evs & w' & -> & _ & first & rest & -> & Ht & _).
    split; [exact Hm | eauto].
  - destruct (generate_session_events_raises u m w) as (w' & -> & _); [lia|].
    split; [reflexivity | lia].
Qed.

(** ** The serialised text is compact JSON *)

Lemma append_cons (c : ascii) (s t : string) : String c s +:+ t = String c (s +:+ t).
Proof. reflexivity. Qed.

Lemma append_nil_l (s : string) : "" +:+ s = s.
Proof. reflexivity. Qed.

Lemma append_assoc (s1 s2 s3 : string) : (s1 +:+ s2) +:+ s3 = s1 +:+ (s2 +:+ s3).
Proof.
  induction s1 as [|c s1 IH]; [reflexivity|].
  rewrite !append_cons. now f_equal.
Qed.

Lemma append_nil_r (s : string) : s +:+ "" = s.
Proof.
  induction s as [|c s IH]; [reflexivity|]. rewrite append_cons. now f_equal.
Qed.

Lemma length_append (s1 s2 : string) :
  String.length (s1 +:+ s2) = String.length s1 + String.length s2.
Proof.
  induction s1 as [|c s1 IH]; [reflexivity|].
  rewrite append_cons. cbn [String.length]. now rewrite IH.
Qed.

Lemma json_induction (P : json -> Prop) :
  (forall s, P (JStr s)) -> (forall z, P (JInt z)) -> (forall c, P (JFloat2 c)) ->
  (forall d, Forall (fun kv => P (snd kv)) d -> P (JDict d)) ->
  forall v, P v.
Proof.
  intros Hs Hz Hc Hd. fix IH 1. intros [s|z|c|d]; [apply Hs | apply Hz | apply Hc |].
  apply Hd. induction d as [|[k x] d IHd]; constructor; [apply IH | apply IHd].
Qed.

Lemma json_dumps_dict (d : dict) :
  json_dumps (JDict d) = "{" +:+ String.concat "," (map dumps_member d) +:+ "}".
Proof.
  cbn [json_dumps]. do 3 f_equal. apply map_ext. intros [k x]. reflexivity.
Qed.

(** *** Strings *)

Lemma skip_string_escape_char (c : ascii) (tl : string) :
  skip_string (escape_char c +:+ tl) = skip_string tl.
Proof.
  destruct c as [[] [] [] [] [] [] [] []]; reflexivity.
Qed.

Lemma skip_string_escape (s rest : string) :
  skip_string (escape s +:+ String dquote rest) = Some rest.
Proof.
  induction s as [|c s IH]; [reflexivity|].
  cbn [escape]. rewrite append_assoc, skip_string_escape_char. exact IH.
Qed.

Lemma skip_string_encode_str (s rest : string) :
  exists body, encode_str s +:+ rest = String dquote body /\ skip_string body = Some rest.
Proof.
  exists (escape s +:+ String dquote rest). split.
  - unfold encode_str. rewrite append_cons, append_assoc. reflexivity.
  - apply skip_string_escape.
Qed.

(** Every byte outside the escaped set, in particular every byte of a
    non-ASCII character, is copied as it is. *)
Lemma escape_char_plain (c : ascii) :
  32 <= nat_of_ascii c -> nat_of_ascii c <> 34 -> nat_of_ascii c <> 92 ->
  escape_char c = String c "".
Proof.
  intros H32 H34 H92. unfold escape_char.
  repeat match goal with
         | |- context [Nat.eqb ?a ?b] => destruct (Nat.eqb_spec a b); [lia|]
         end.
  destruct (Nat.ltb_spec (nat_of_ascii c) 32); [lia | reflexivity].
Qed.

(** *** Numbers *)

Lemma ends_value_not_digit (rest : string) :
  ends_value rest = true -> not_digit_start rest = true.
Proof.
  destruct rest as [|c r]; [reflexivity|]. cbn [ends_value not_digit_start].
  rewrite !orb_true_iff. intros [[H|H]|H]; apply Ascii.eqb_eq in H; subst c; reflexivity.
Qed.

Lemma skip_digits_stop (rest : string) :
  not_digit_start rest = true -> skip_digits rest = rest.
Proof.
  destruct rest as [|c r]; [reflexivity|]. cbn [not_digit_start skip_digits].
  intros H. apply negb_true_iff in H. now rewrite H.
Qed.

Lemma skip_digits_all (s rest : string) :
  all_digits s = true -> not_digit_start rest = true ->
  skip_digits (s +:+ rest) = rest.
Proof.
  intros Hs Hrest. induction s as [|c s IH]; [now apply skip_digits_stop|].
  cbn [all_digits] in Hs. apply andb_true_iff in Hs as [Hc Hs].
  rewrite append_cons. cbn [skip_digits]. rewrite Hc. auto.
Qed.

Lemma skip_digits1_all (s rest : string) :
  all_digits s = true -> s <> "" -> not_digit_start rest = true ->
  skip_digits1 (s +:+ rest) = Some rest.
Proof.
  intros Hs Hne Hrest. destruct s as [|c s]; [congruence|].
  cbn [all_digits] in Hs. apply andb_true_iff in Hs as [Hc Hs].
  rewrite append_cons. cbn [skip_digits1]. rewrite Hc.
  now rewrite skip_digits_all.
Qed.

Lemma skip_frac_end (rest : string) : ends_value rest = true -> skip_frac rest = Some rest.
Proof.
  destruct rest as [|c r]; [reflexivity|]. cbn [ends_value skip_frac].
  rewrite !orb_true_iff. intros [[H|H]|H]; apply Ascii.eqb_eq in H; subst c; reflexivity.
Qed.

Lemma skip_exp_end (rest : string) : ends_value rest = true -> skip_exp rest = Some rest.
Proof.
  destruct rest as [|c r]; [reflexivity|]. cbn [ends_value skip_exp].
  rewrite !orb_true_iff. intros [[H|H]|H]; apply Ascii.eqb_eq in H; subst c; reflexivity.
Qed.

Lemma all_digits_append (s t : string) :
  all_digits s = true -> all_digits t = true -> all_digits (s +:+ t) = true.
Proof.
  intros Hs Ht. induction s as [|c s IH]; [exact Ht|].
  cbn [all_digits] in Hs. apply andb_true_iff in Hs as [Hc Hs].
  rewrite append_cons. cbn [all_digits]. rewrite Hc. auto.
Qed.

Lemma all_digits_zeros (n : nat) : all_digits (zeros n) = true.
Proof. induction n as [|n IH]; [reflexivity | exact IH]. Qed.

Lemma all_digits_uint (d : Decimal.uint) :
  all_digits (NilEmpty.string_of_uint d) = true.
Proof. induction d; cbn; auto. Qed.

Lemma nzhead_shape (d : Decimal.uint) :
  Decimal.nzhead d = Decimal.Nil \/ starts_nonzero (Decimal.nzhead d).
Proof. induction d; cbn; auto. Qed.

Lemma pos_to_uint_starts_nonzero (p : positive) : starts_nonzero (Pos.to_uint p).
Proof.
  assert (E : Pos.to_uint p = Decimal.unorm (Pos.to_uint p)).
  { rewrite <- DecimalPos.Unsigned.to_of, DecimalPos.Unsigned.of_to. reflexivity. }
  rewrite E. unfold Decimal.unorm.
  destruct (nzhead_shape (Pos.to_uint p)) as [H|H].
  - exfalso. apply (DecimalPos.Unsigned.to_uint_nonzero p). rewrite E.
    unfold Decimal.unorm. now rewrite H.
  - destruct (Decimal.nzhead (Pos.to_uint p)); cbn in H; try tauto; exact I.
Qed.

Lemma skip_int_uint (d : Decimal.uint) (rest : string) :
  starts_nonzero d -> not_digit_start rest = true ->
  skip_int (NilEmpty.string_of_uint d +:+ rest) = Some rest.
Proof.
  intros Hd Hrest.
  destruct d; cbn in Hd; try tauto; cbn [NilEmpty.string_of_uint];
    rewrite append_cons; cbn [skip_int Ascii.eqb Bool.eqb is_digit];
    (rewrite skip_digits_all; [reflexivity | apply all_digits_uint | exact Hrest]).
Qed.

Lemma str_of_Z_pos (p : positive) :
  str_of_Z (Zpos p) = NilEmpty.string_of_uint (Pos.to_uint p).
Proof.
  unfold str_of_Z. cbn [Z.to_int NilZero.string_of_int NilZero.string_of_uint].
  pose proof (pos_to_uint_starts_nonzero p) as H.
  destruct (Pos.to_uint p); cbn in H; try tauto; reflexivity.
Qed.

Lemma str_of_Z_neg (p : positive) :
  str_of_Z (Zneg p) = String "-" (NilEmpty.string_of_uint (Pos.to_uint p)).
Proof.
  unfold str_of_Z. cbn [Z.to_int NilZero.string_of_int NilZero.string_of_uint].
  pose proof (pos_to_uint_starts_nonzero p) as H.
  destruct (Pos.to_uint p); cbn in H; try tauto; reflexivity.
Qed.

Lemma skip_int_nonneg (z : Z) (rest : string) :
  (0 <= z)%Z -> not_digit_start rest = true ->
  skip_int (str_of_Z z +:+ rest) = Some rest.
Proof.
  intros Hz Hrest. destruct z as [|p|p]; [reflexivity | | lia].
  rewrite str_of_Z_pos. apply skip_int_uint; [apply pos_to_uint_starts_nonzero | exact Hrest].
Qed.

Lemma all_digits_nonneg (z : Z) :
  (0 <= z)%Z -> all_digits (str_of_Z z) = true /\ str_of_Z z <> "".
Proof.
  intros Hz. destruct z as [|p|p]; [split; [reflexivity | discriminate] | | lia].
  rewrite str_of_Z_pos. split; [apply all_digits_uint|].
  pose proof (pos_to_uint_starts_nonzero p) as H.
  destruct (Pos.to_uint p); cbn in H; try tauto; discriminate.
Qed.

Lemma number_start_nonneg (z : Z) (rest : string) :
  (0 <= z)%Z -> number_start (str_of_Z z +:+ rest) = true /\
                skip_minus (str_of_Z z +:+ rest) = str_of_Z z +:+ rest.
Proof.
  intros Hz. destruct (all_digits_nonneg z Hz) as [Hd Hne].
  destruct (str_of_Z z) as [|c s]; [congruence|].
  cbn [all_digits] in Hd. apply andb_true_iff in Hd as [Hc _].
  rewrite append_cons. cbn [number_start skip_minus]. rewrite Hc. split; [reflexivity|].
  destruct (Ascii.eqb_spec c "-") as [->|]; [discriminate | reflexivity].
Qed.

Lemma skip_number_int (z : Z) (rest : string) :
  ends_value rest = true ->
  number_start (str_of_Z z +:+ rest) = true /\
  skip_number (str_of_Z z +:+ rest) = Some rest.
Proof.
  intros Hrest. pose proof (ends_value_not_digit rest Hrest) as Hnd.
  unfold skip_number. destruct (Z.neg_nonneg_cases z) as [Hz|Hz].
  - destruct z as [|p|p]; try lia.
    rewrite str_of_Z_neg, append_cons. cbn [number_start skip_minus Ascii.eqb Bool.eqb is_digit].
    split; [reflexivity|].
    rewrite skip_int_uint by (auto using pos_to_uint_starts_nonzero).
    now rewrite skip_frac_end, skip_exp_end.
  - destruct (number_start_nonneg z rest Hz) as [Hs ->]. split; [exact Hs|].
    rewrite skip_int_nonneg by assumption.
    now rewrite skip_frac_end, skip_exp_end.
Qed.

Lemma skip_number_float2 (c : Z) (rest : string) :
  ends_value rest = true ->
  number_start (repr_float2 c +:+ rest) = true /\
  skip_number (repr_float2 c +:+ rest) = Some rest.
Proof.
  intros Hrest. pose proof (ends_value_not_digit rest Hrest) as Hnd.
  unfold repr_float2.
  set (a := Z.abs c). set (f := (a mod 100)%Z).
  set (frac := if (f mod 10 =? 0)%Z then str_of_Z (f / 10) else pad 2 f).
  assert (Ha : (0 <= a / 100)%Z) by (apply Z.div_pos; subst a; lia).
  assert (Hf : (0 <= f)%Z) by (subst f; apply Z.mod_pos_bound; lia).
  assert (Hfrac : all_digits frac = true /\ frac <> "").
  { subst frac. destruct (f mod 10 =? 0)%Z.
    - apply all_digits_nonneg, Z.div_pos; lia.
    - destruct (all_digits_nonneg f Hf) as [Hd Hne]. unfold pad. split.
      + apply all_digits_append; [apply all_digits_zeros | exact Hd].
      + destruct (zeros _); [exact Hne | discriminate]. }
  destruct Hfrac as [Hfd Hfne].
  assert (Hbody : forall s, s = str_of_Z (a / 100) +:+ "." +:+ frac +:+ rest ->
            number_start s = true /\ skip_minus s = s /\
            skip_int s = Some ("." +:+ frac +:+ rest)).
  { intros s ->. destruct (number_start_nonneg (a / 100) ("." +:+ frac +:+ rest) Ha) as [H1 H2].
    split; [exact H1|]. split; [exact H2|]. now apply skip_int_nonneg. }
  assert (Htail : skip_frac ("." +:+ frac +:+ rest) = Some rest).
  { rewrite append_cons, append_nil_l. cbn [skip_frac Ascii.eqb Bool.eqb].
    now apply skip_digits1_all. }
  unfold skip_number. destruct (c <? 0)%Z.
  - rewrite !append_assoc, append_cons, append_nil_l.
    cbn [number_start skip_minus Ascii.eqb Bool.eqb is_digit]. split; [reflexivity|].
    destruct (Hbody _ eq_refl) as (_ & _ & ->). rewrite Htail. now apply skip_exp_end.
  - rewrite !append_assoc, append_nil_l.
    destruct (Hbody _ eq_refl) as (Hs & -> & ->). split; [exact Hs|].
    rewrite Htail. now apply skip_exp_end.
Qed.

Lemma skip_value_number (n : nat) (s : string) :
  number_start s = true -> skip_value (S n) s = skip_number s.
Proof.
  destruct s as [|c s]; [discriminate|].
  destruct c as [[] [] [] [] [] [] [] []]; try discriminate; reflexivity.
Qed.

(** *** Values and objects *)

Lemma skip_value_string (n : nat) (s rest : string) :
  skip_value (S n) (encode_str s +:+ rest) = Some rest.
Proof.
  destruct (skip_string_encode_str s rest) as (body & -> & Hbody). exact Hbody.
Qed.

Lemma concat_cons (sep m : string) (ms : list string) :
  String.concat sep (m :: ms) =
    match ms with
    | [] => m
    | _ :: _ => m +:+ sep +:+ String.concat sep ms
    end.
Proof. destruct ms; reflexivity. Qed.

Lemma members_text_head (d : dict) (tail : string) :
  d <> [] ->
  exists r0, String.concat "," (map dumps_member d) +:+ tail = String dquote r0.
Proof.
  destruct d as [|[k x] d']; [congruence|]. intros _.
  cbn [map]. rewrite concat_cons.
  destruct (map dumps_member d'); unfold dumps_member, encode_str; cbn [fst snd];
    rewrite !append_cons; eexists; reflexivity.
Qed.

Lemma members_size_cons (k : string) (x : json) (d : dict) :
  members_size ((k, x) :: d) = S (jsize x) + members_size d.
Proof. reflexivity. Qed.

Lemma skip_members_dumps (d : dict) :
  Forall (fun kv => value_recognised (snd kv)) d ->
  forall n rest, d <> [] -> members_size d <= n ->
    skip_members n (String.concat "," (map dumps_member d) +:+ String "}" rest)
    = Some rest.
Proof.
  induction 1 as [|[k x] d' Hx Hd' IH]; [congruence|].
  intros n rest _ Hn. rewrite members_size_cons in Hn. cbn [snd] in Hx.
  destruct n as [|f]; [lia|].
  cbn [map]. rewrite concat_cons.
  destruct d' as [|kv' d''].
  - cbn [map]. unfold dumps_member. cbn [fst snd]. rewrite !append_assoc.
    destruct (skip_string_encode_str k (":" +:+ json_dumps x +:+ String "}" rest))
      as (body & -> & Hbody).
    cbn [skip_members Ascii.eqb Bool.eqb dquote]. rewrite Hbody.
    rewrite append_cons, append_nil_l. cbn [Ascii.eqb Bool.eqb].
    rewrite (Hx f (String "}" rest)); [reflexivity | lia | reflexivity].
  - cbn [map]. change (dumps_member kv' :: map dumps_member d'')
      with (map dumps_member (kv' :: d'')).
    set (more := String.concat "," (map dumps_member (kv' :: d''))) in *.
    unfold dumps_member. cbn [fst snd]. rewrite !append_assoc.
    destruct (skip_string_encode_str k
                (":" +:+ json_dumps x +:+ "," +:+ more +:+ String "}" rest))
      as (body & -> & Hbody).
    cbn [skip_members Ascii.eqb Bool.eqb dquote]. rewrite Hbody.
    rewrite append_cons, append_nil_l. cbn [Ascii.eqb Bool.eqb].
    rewrite (Hx f ("," +:+ more +:+ String "}" rest)); [| lia | reflexivity].
    rewrite append_cons, append_nil_l. cbn [Ascii.eqb Bool.eqb].
    apply IH; [discriminate | lia].
Qed.

Lemma json_dumps_recognised (v : json) : value_recognised v.
Proof.
  induction v as [s|z|c|d IH] using json_induction; intros n rest Hn Hrest.
  - destruct n as [|n]; [cbn in Hn; lia|]. apply skip_value_string.
  - destruct n as [|n]; [cbn in Hn; lia|]. cbn [json_dumps].
    destruct (skip_number_int z rest Hrest) as [Hs Hnum].
    now rewrite skip_value_number.
  - destruct n as [|n]; [cbn in Hn; lia|]. cbn [json_dumps].
    destruct (skip_number_float2 c rest Hrest) as [Hs Hnum].
    now rewrite skip_value_number.
  - change (jsize (JDict d)) with (S (members_size d)) in Hn.
    destruct n as [|f]; [lia|].
    rewrite json_dumps_dict, !append_assoc, append_cons, append_nil_l.
    change ("}" +:+ rest) with (String "}" rest).
    destruct d as [|kv d'].
    + reflexivity.
    + destruct (members_text_head (kv :: d') (String "}" rest)) as [r0 Hr0];
        [discriminate|].
      pose proof (skip_members_dumps (kv :: d') IH f rest) as Hm.
      rewrite Hr0 in *. cbn [skip_value Ascii.eqb Bool.eqb dquote].
      apply Hm; [discriminate | lia].
Qed.

Lemma str_of_Z_nonempty (z : Z) : 1 <= String.length (str_of_Z z).
Proof.
  destruct (Z.neg_nonneg_cases z) as [Hz|Hz].
  - destruct z as [|p|p]; try lia. rewrite str_of_Z_neg. cbn [String.length]. lia.
  - destruct (all_digits_nonneg z Hz) as [_ Hne].
    destruct (str_of_Z z); [congruence | cbn [String.length]; lia].
Qed.

Lemma members_size_le_length (d : dict) :
  Forall (fun kv => jsize (snd kv) <= String.length (json_dumps (snd kv))) d ->
  members_size d <= String.length (String.concat "," (map dumps_member d)).
Proof.
  induction 1 as [|[k x] d' Hx Hd' IH]; [reflexivity|].
  rewrite members_size_cons. cbn [map].
  rewrite concat_cons. cbn [snd] in Hx.
  assert (Hm : S (jsize x) <= String.length (dumps_member (k, x))).
  { unfold dumps_member, encode_str. cbn [fst snd].
    rewrite append_cons. cbn [String.length]. rewrite !length_append.
    cbn [String.length]. lia. }
  destruct (map dumps_member d') eqn:E.
  - destruct d'; [|discriminate]. change (members_size []) with 0. lia.
  - cbv iota. rewrite !length_append. cbn [String.length]. lia.
Qed.

Lemma jsize_le_length (v : json) : jsize v <= String.length (json_dumps v).
Proof.
  induction v as [s|z|c|d IH] using json_induction.
  - cbn [jsize json_dumps encode_str String.length]. lia.
  - cbn [jsize json_dumps]. apply str_of_Z_nonempty.
  - cbn [jsize json_dumps]. unfold repr_float2. rewrite !length_append.
    cbn [String.length]. lia.
  - change (jsize (JDict d)) with (S (members_size d)).
    rewrite json_dumps_dict, append_cons, append_nil_l. cbn [String.length].
    rewrite length_append. cbn [String.length]. pose proof (members_size_le_length d IH). lia.
Qed.

(** Every text that [json.dumps] produces is one JSON value without
    white space. *)
Lemma json_dumps_compact (v : json) : compact_json (json_dumps v) = true.
Proof.
  unfold compact_json.
  pose proof (json_dumps_recognised v (S (String.length (json_dumps v))) "") as H.
  rewrite append_nil_r in H. rewrite H; [reflexivity | | reflexivity].
  pose proof (jsize_le_length v). lia.
Qed.

(** Every serialised payload is one JSON object without white space. *)
Lemma json_dumps_object (d : dict) :
  compact_json_object (json_dumps (JDict d)) = true.
Proof.
  unfold compact_json_object. rewrite (json_dumps_compact (JDict d)).
  rewrite json_dumps_dict, append_cons. reflexivity.
Qed.

(** *** One payload, one line *)

Lemma has_char_append (c : ascii) (s t : string) :
  has_char c (s +:+ t) = has_char c s || has_char c t.
Proof.
  induction s as [|a s IH]; [reflexivity|].
  rewrite append_cons. cbn [has_char]. rewrite IH. apply orb_assoc.
Qed.

Lemma escape_char_no_newline (c : ascii) : has_char newline (escape_char c) = false.
Proof. destruct c as [[] [] [] [] [] [] [] []]; reflexivity. Qed.

Lemma escape_no_newline (s : string) : has_char newline (escape s) = false.
Proof.
  induction s as [|c s IH]; [reflexivity|].
  cbn [escape]. now rewrite has_char_append, escape_char_no_newline, IH.
Qed.

Lemma encode_str_no_newline (s : string) : has_char newline (encode_str s) = false.
Proof.
  unfold encode_str. cbn [has_char]. rewrite has_char_append, escape_no_newline.
  reflexivity.
Qed.

Lemma digits_no_newline (s : string) :
  all_digits s = true -> has_char newline s = false.
Proof.
  induction s as [|c s IH]; [reflexivity|]. cbn [all_digits has_char].
  intros H. apply andb_true_iff in H as [Hc Hs]. rewrite (IH Hs), orb_false_r.
  destruct (Ascii.eqb_spec c newline) as [->|]; [discriminate | reflexivity].
Qed.

Lemma str_of_Z_no_newline (z : Z) : has_char newline (str_of_Z z) = false.
Proof.
  destruct (Z.neg_nonneg_cases z) as [Hz|Hz].
  - destruct z as [|p|p]; try lia. rewrite str_of_Z_neg. cbn [has_char].
    rewrite digits_no_newline; [reflexivity | apply all_digits_uint].
  - apply digits_no_newline, all_digits_nonneg, Hz.
Qed.

Lemma json_dumps_no_newline (v : json) : has_char newline (json_dumps v) = false.
Proof.
  induction v as [s|z|c|d IH] using json_induction.
  - apply encode_str_no_newline.
  - apply str_of_Z_no_newline.
  - cbn [json_dumps]. unfold repr_float2, pad.
    rewrite !has_char_append, !str_of_Z_no_newline.
    destruct (_ <? _)%Z, (_ =? _)%Z;
      rewrite ?has_char_append, ?str_of_Z_no_newline,
        ?(digits_no_newline _ (all_digits_zeros _)); reflexivity.
  - rewrite json_dumps_dict, !has_char_append.
    assert (H : has_char newline (String.concat "," (map dumps_member d)) = false).
    { induction IH as [|[k x] d' Hx Hd' IHd]; [reflexivity|].
      cbn [map]. rewrite concat_cons.
      assert (Hm : has_char newline (dumps_member (k, x)) = false).
      { unfold dumps_member. cbn [fst snd] in *.
        now rewrite !has_char_append, encode_str_no_newline, Hx. }
      destruct (map dumps_member d'); [exact Hm|].
      rewrite !has_char_append, Hm, IHd. reflexivity. }
    rewrite H. reflexivity.
Qed.

(** ** One emission *)

Lemma inject_out_of_order_eq args r w :
  exists w',
    inject_out_of_order args r w = Ok tt w' /\
    env w' = env w /\ stdout w' = stdout w /\ file_state w' = file_state w /\
    file_lines w' = file_lines w /\
    heap w' =
      (if oo_taken args w
       then alter (dict_set "event_ts" (JStr (oo_event_ts w))) r (heap w)
       else heap w).
Proof.
  unfold inject_out_of_order, bind, oo_taken. rewrite random_random_eq.
  destruct (float_lt (unit_draw w) (oo_rate args)).
  - eexists. split; [reflexivity|]. repeat split.
  - eexists. split; [reflexivity|]. repeat split.
Qed.

Lemma oo_delta_range w : (60 <= oo_delta w <= 3600)%Z.
Proof.
  unfold oo_delta.
  assert (H : (rand_raw (env w) (S (rand_pos w)) mod 3541 < 3541)%N)
    by (apply N.mod_upper_bound; discriminate).
  generalize dependent (rand_raw (env w) (S (rand_pos w)) mod 3541)%N.
  intros n H. lia.
Qed.

Lemma after_injection_spec args ev w :
  (let* fresh := alloc (asdict ev) in inject_out_of_order args fresh) w
    = Ok tt (after_injection args ev w) /\
  env (after_injection args ev w) = env w /\
  stdout (after_injection args ev w) = stdout w /\
  file_state (after_injection args ev w) = file_state w /\
  file_lines (after_injection args ev w) = file_lines w /\
  heap (after_injection args ev w) = (heap w ++ [fresh_payload args ev w])%list.
Proof.
  unfold after_injection, bind, alloc.
  destruct (inject_out_of_order_eq args (length (heap w))
              (with_heap (heap w ++ [asdict ev]) w))
    as (w' & -> & He & Ho & Hs & Hl & Hh).
  cbn [world_of]. repeat split; try assumption.
  rewrite Hh. unfold fresh_payload.
  change (oo_taken args (with_heap (heap w ++ [asdict ev]) w)) with (oo_taken args w).
  change (oo_event_ts (with_heap (heap w ++ [asdict ev]) w)) with (oo_event_ts w).
  cbn [heap with_heap].
  destruct (oo_taken args w); [|reflexivity].
  rewrite alter_app_r_alt by lia. now rewrite Nat.sub_diag.
Qed.

Lemma emit_one_unfold args fh ev st w :
  emit_one args fh ev st w =
    emit_payload args fh st (length (heap w)) (after_injection args ev w).
Proof.
  destruct (after_injection_spec args ev w) as (Hrun & _).
  unfold bind, alloc in Hrun. unfold emit_one, bind, alloc.
  destruct (inject_out_of_order args _ _) as [[] w1|e w1]; [|discriminate].
  injection Hrun as <-. reflexivity.
Qed.

Lemma inject_duplicate_eq args st fresh wi :
  exists w',
    inject_duplicate args (previously_emitted st) fresh wi
      = Ok (chosen_payload args st fresh wi) w' /\
    io_of w' = io_of wi.
Proof.
  unfold inject_duplicate, chosen_payload, dup_taken, dup_index.
  destruct (previously_emitted st) as [|r0 window'] eqn:E.
  - eexists. split; reflexivity.
  - unfold bind. rewrite random_random_eq.
    destruct (float_lt (unit_draw wi) (dup_rate args)).
    + rewrite (random_choice_eq _ fresh) by discriminate.
      eexists. split; reflexivity.
    + eexists. split; reflexivity.
Qed.

(** What one pass through the loop body does. *)
Lemma emit_one_spec args fh ev st w :
  let wi := after_injection args ev w in
  let p := chosen_payload args st (length (heap w)) wi in
  exists w',
    emit_one args fh ev st w =
      Ok {| emitted := emitted st + 1;
            previously_emitted := retain (previously_emitted st) p |} w' /\
    env w' = env w /\
    heap w' = (heap w ++ [fresh_payload args ev w])%list /\
    dest_lines fh w' = (dest_lines fh w ++ [payload_line p w'])%list /\
    dest_lines (negb fh) w' = dest_lines (negb fh) w /\
    file_state w' = file_state w.
Proof.
  intros wi p. rewrite emit_one_unfold. fold wi.
  destruct (after_injection_spec args ev w) as (_ & He & Ho & Hs & Hl & Hh).
  fold wi in He, Ho, Hs, Hl, Hh.
  unfold emit_payload, bind at 1.
  destruct (inject_duplicate_eq args st (length (heap w)) wi) as (w1 & -> & Hio).
  fold p. unfold io_of in Hio. injection Hio as He1 Hh1 Ho1 Hs1 Hl1 _.
  unfold bind, load, payload_line.
  destruct fh; destruct (0 <? sleep_ms args)%Z;
    (eexists; split; [reflexivity|]);
    cbn [env heap stdout file_state file_lines dest_lines negb
           fh_write_line print sleep ret with_file with_stdout with_slept];
    rewrite ?He1, ?Hh1, ?Ho1, ?Hs1, ?Hl1, ?He, ?Hh, ?Ho, ?Hs, ?Hl; auto.
Qed.

(** ** The retained window *)

Lemma retain_eq (window : list ref) (p : ref) :
  retain window p =
    if Nat.ltb (length window) 5000
    then (window ++ [p])%list
    else drop (length window - 1999) (window ++ [p])%list.
Proof.
  unfold retain. rewrite length_app. cbn [length].
  destruct (Nat.ltb_spec 5000 (length window + 1));
    destruct (Nat.ltb_spec (length window) 5000); try lia; [|reflexivity].
  f_equal. lia.
Qed.

Lemma retain_length (window : list ref) (p : ref) :
  length (retain window p) =
    if Nat.ltb (length window) 5000 then S (length window) else 2000.
Proof.
  rewrite retain_eq. destruct (Nat.ltb_spec (length window) 5000).
  - rewrite length_app. cbn [length]. lia.
  - rewrite length_drop, length_app. cbn [length]. lia.
Qed.

Lemma retain_Forall (P : ref -> Prop) (window : list ref) (p : ref) :
  Forall P window -> P p -> Forall P (retain window p).
Proof.
  intros Hw Hp. rewrite retain_eq.
  assert (H : Forall P (window ++ [p])) by (apply Forall_app; auto).
  destruct (Nat.ltb (length window) 5000); [exact H | now apply Forall_drop].
Qed.

Lemma window_size_range (n : Z) : (0 <= n)%Z -> (0 <= window_size n <= 5000)%Z.
Proof.
  intros Hn. unfold window_size. destruct (Z.leb_spec n 5000); [lia|].
  pose proof (Z.mod_pos_bound (n - 5001) 3001). lia.
Qed.

Lemma window_size_succ (n : Z) :
  (0 <= n)%Z ->
  window_size (n + 1) =
    (if (window_size n <? 5000)%Z then window_size n + 1 else 2000)%Z.
Proof.
  intros Hn. unfold window_size.
  destruct (Z.leb_spec n 5000) as [H1|H1]; destruct (Z.leb_spec (n + 1) 5000) as [H2|H2];
    try lia.
  - destruct (Z.ltb_spec n 5000); lia.
  - assert (n = 5000)%Z as -> by lia. reflexivity.
  - pose proof (Z.mod_pos_bound (n - 5001) 3001 ltac:(lia)) as Hb.
    replace (n + 1 - 5001)%Z with ((n - 5001) + 1)%Z by lia.
    rewrite (Z.add_mod (n - 5001) 1 3001) by lia.
    change (1 mod 3001)%Z with 1%Z.
    destruct (Z.ltb_spec (2000 + (n - 5001) mod 3001) 5000) as [H3|H3].
    + rewrite Z.mod_small by lia. lia.
    + assert (E : ((n - 5001) mod 3001 = 3000)%Z) by lia. rewrite E. reflexivity.
Qed.

Lemma window_size_step (e : Z) (window : list ref) (p : ref) :
  (0 <= e)%Z -> Z.of_nat (length window) = window_size e ->
  Z.of_nat (length (retain window p)) = window_size (e + 1).
Proof.
  intros He Hlen. rewrite retain_length, window_size_succ by exact He.
  rewrite <- Hlen.
  destruct (Nat.ltb_spec (length window) 5000); destruct (Z.ltb_spec (Z.of_nat (length window)) 5000);
    lia.
Qed.

(** ** Invariants of the emission loop *)

Lemma emit_one_slept args fh ev st w :
  returns (emit_one args fh ev st) w (fun _ w' => slept_ms w' = slept_ms w).
Proof.
  unfold returns. rewrite emit_one_unfold.
  assert (Hs : slept_ms (after_injection args ev w) = slept_ms w).
  { unfold after_injection, bind, alloc, inject_out_of_order. unfold bind.
    rewrite random_random_eq.
    destruct (float_lt _ _); reflexivity. }
  unfold emit_payload, bind at 1.
  destruct (inject_duplicate_eq args st (length (heap w)) (after_injection args ev w))
    as (w1 & -> & Hio).
  unfold io_of in Hio. injection Hio as _ _ _ _ _ Hs1.
  unfold bind, load.
  destruct fh; cbn; rewrite Hs1, Hs; reflexivity.
Qed.

(** ** The pause *)

Lemma raises_bind_l {A B} (m : Py A) (k : A -> Py B) w (Q : exn -> World -> Prop) :
  raises m w Q -> raises (bind m k) w Q.
Proof. unfold raises, bind. destruct (m w); tauto. Qed.

Lemma raises_bind_r {A B} (m : Py A) (k : A -> Py B) w (Q : exn -> World -> Prop) :
  returns m w (fun a w1 => raises (k a) w1 Q) -> raises (bind m k) w Q.
Proof. unfold returns, raises, bind. destruct (m w); tauto. Qed.

Lemma raises_exists {A} (m : Py A) w (Q : exn -> World -> Prop) :
  raises m w Q <-> exists e w', m w = Raised e w' /\ Q e w'.
Proof.
  unfold raises. split.
  - destruct (m w) as [|e w']; [tauto | eauto].
  - intros (e & w' & -> & H). exact H.
Qed.

Lemma pace_ok args w :
  pace_error args (env w) = None ->
  exists w',
    pace args w = Ok tt w' /\
    env w' = env w /\ heap w' = heap w /\ stdout w' = stdout w /\
    file_state w' = file_state w /\ file_lines w' = file_lines w /\
    slept_ms w' = (slept_ms w + pause args)%Z.
Proof.
  unfold pace_error, pace, pause, sleep.
  destruct (0 <? sleep_ms args)%Z.
  - destruct (float_of_int_fails (sleep_ms args)); [discriminate|].
    intros ->. eexists. split; [reflexivity|]. repeat split.
  - intros _. exists w. split; [reflexivity|]. repeat split. lia.
Qed.

Lemma pace_fails args w e :
  pace_error args (env w) = Some e -> pace args w = Raised e w.
Proof.
  unfold pace_error, pace, sleep.
  destruct (0 <? sleep_ms args)%Z; [|discriminate].
  destruct (float_of_int_fails (sleep_ms args)); [now intros [= <-]|].
  now intros ->.
Qed.

(** What one pass through the loop body does when the pause is accepted. *)
Lemma pass_spec args fh ev st w :
  pace_error args (env w) = None ->
  let wi := after_injection args ev w in
  let p := chosen_payload args st (length (heap w)) wi in
  exists w',
    pass args fh ev st w =
      Ok {| emitted := emitted st + 1;
            previously_emitted := retain (previously_emitted st) p |} w' /\
    env w' = env w /\
    heap w' = (heap w ++ [fresh_payload args ev w])%list /\
    dest_lines fh w' = (dest_lines fh w ++ [payload_line p w'])%list /\
    dest_lines (negb fh) w' = dest_lines (negb fh) w /\
    file_state w' = file_state w /\
    slept_ms w' = (slept_ms w + pause args)%Z.
Proof.
  intros Hpace wi p.
  destruct (emit_one_spec args fh ev st w) as (w1 & Hrun & He & Hh & Hd & Ho & Hs).
  fold wi p in Hrun, Hd.
  pose proof (emit_one_slept args fh ev st w) as Hsl.
  unfold returns in Hsl. rewrite Hrun in Hsl.
  destruct (pace_ok args w1) as (w' & Hp & He' & Hh' & Ho' & Hs' & Hl' & Hsl');
    [now rewrite He|].
  exists w'. unfold pass, bind. rewrite Hrun, Hp.
  assert (Hdl : forall b, dest_lines b w' = dest_lines b w1)
    by (intros []; cbn [dest_lines]; assumption).
  split; [reflexivity|]. rewrite !Hdl, He', Hh', Hs', Hsl'. unfold payload_line.
  rewrite Hh'. repeat split; try assumption; congruence.
Qed.

(** A pass that returns has run the emission: the counter went up by one. *)
Lemma pass_counts args fh ev st w (Q : LoopState -> World -> Prop) :
  returns (pass args fh ev st) w Q ->
  returns (pass args fh ev st) w (fun st' w' =>
    Q st' w' /\ emitted st' = (emitted st + 1)%Z).
Proof.
  unfold returns, pass, bind.
  destruct (emit_one_spec args fh ev st w) as (w1 & -> & _).
  destruct (pace args w1) as [[] w'|e w']; [|tauto]. cbn [ret emitted]. auto.
Qed.

Section LoopInvariant.

Variables (args : Namespace) (fh : bool).
Variable Inv : LoopState -> World -> Prop.

Hypothesis Inv_io : forall st w w', io_of w' = io_of w -> Inv st w -> Inv st w'.
Hypothesis Inv_step : forall ev st w,
    Inv st w -> (emitted st < events args)%Z ->
    returns (pass args fh ev st) w Inv.

Lemma for_session_inv evs st w :
  Inv st w ->
  returns (for_session args fh evs st) w (fun st' w' =>
    Inv st' w' /\
    (emitted st <= emitted st' <= Z.max (emitted st) (events args))%Z /\
    (evs <> [] -> emitted st < events args -> emitted st < emitted st')%Z).
Proof.
  revert st w. induction evs as [|ev evs IH]; intros st w HI; cbn [for_session].
  - apply returns_ret. split; [exact HI|]. split; [lia | congruence].
  - destruct (Z.leb_spec (events args) (emitted st)) as [Hdone|Hmore].
    + apply returns_ret. split; [exact HI|]. split; lia.
    + apply returns_bind.
      eapply returns_mono; [apply pass_counts, (Inv_step ev st w HI Hmore)|].
      intros st1 w1 [HI1 Hc1]. cbv beta.
      eapply returns_mono; [apply (IH st1 w1 HI1)|].
      intros st2 w2 (HI2 & Hr & _). cbv beta. split; [exact HI2|]. split; lia.
Qed.

Lemma while_emitting_inv fuel st w :
  (1 <= max_events_per_session args)%Z ->
  Inv st w ->
  (events args - emitted st <= Z.of_nat fuel)%Z ->
  returns (while_emitting fuel args fh st) w (fun r w' =>
    exists st', r = Some st' /\ Inv st' w' /\
                emitted st' = Z.max (emitted st) (events args)).
Proof.
  intros Hmax. revert st w.
  induction fuel as [|fuel IH]; intros st w HI Hfuel; cbn [while_emitting];
    destruct (Z.ltb_spec (emitted st) (events args)) as [Hmore|Hdone];
    try (apply returns_ret; exists st; repeat split; [exact HI | lia]).
  - lia.
  - step_prim. apply returns_bind.
    eapply returns_mono; [apply generate_session_events_spec, Hmax|].
    intros evs w2 (Hio2 & first & rest & -> & _). cbv beta.
    apply returns_bind.
    eapply returns_mono; [apply for_session_inv|].
    + eapply Inv_io; [|exact HI]. rewrite Hio2. reflexivity.
    + intros st1 w3 (HI1 & Hr & Hprog). cbv beta.
      specialize (Hprog ltac:(discriminate) Hmore).
      eapply returns_mono; [apply (IH st1 w3 HI1); lia|].
      intros r w4 (st2 & -> & HI2 & Hc). exists st2. repeat split; [exact HI2 | lia].
Qed.

End LoopInvariant.

Lemma chosen_payload_cases args st fresh wi :
  (dup_taken args st wi = false /\ chosen_payload args st fresh wi = fresh) \/
  (dup_taken args st wi = true /\
   dup_index st wi < length (previously_emitted st) /\
   previously_emitted st !! dup_index st wi = Some (chosen_payload args st fresh wi)).
Proof.
  unfold chosen_payload. destruct (dup_taken args st wi) eqn:E; [right | left; auto].
  assert (Hlt : dup_index st wi < length (previously_emitted st)).
  { unfold dup_index, index_draw. apply mod_index_lt.
    unfold dup_taken in E. destruct (previously_emitted st); [discriminate | cbn; lia]. }
  split; [reflexivity|]. split; [exact Hlt|].
  destruct (lookup_lt_is_Some_2 _ _ Hlt) as [x Hx].
  now rewrite (nth_lookup_Some _ _ fresh x Hx).
Qed.

Lemma payload_line_ok (r : ref) (w : World) : line_ok (payload_line r w).
Proof.
  split; [apply json_dumps_object | apply json_dumps_no_newline].
Qed.

(** The payload that an emission writes is a dictionary of the heap, and
    the dictionaries allocated before are left as they were. *)
Lemma emitted_payload_stored args fh ev st w w' :
  window_ok fh st w ->
  heap w' = (heap w ++ [fresh_payload args ev w])%list ->
  let p := chosen_payload args st (length (heap w)) (after_injection args ev w) in
  exists d, heap w' !! p = Some d /\ payload_line p w' = json_dumps (JDict d) /\
            (p = length (heap w) \/ heap w !! p = Some d).
Proof.
  intros Hok Hh p.
  destruct (chosen_payload_cases args st (length (heap w)) (after_injection args ev w))
    as [[_ Hp] | (_ & _ & Hp)]; fold p in Hp.
  - exists (fresh_payload args ev w). unfold payload_line. rewrite Hh, Hp.
    rewrite lookup_app_r, Nat.sub_diag by lia. cbn. auto.
  - apply list_elem_of_lookup_2 in Hp. unfold window_ok in Hok.
    rewrite Forall_forall in Hok. destruct (Hok p Hp) as (d & Hd & _).
    exists d. unfold payload_line. rewrite Hh, (lookup_app_l_Some _ _ _ _ Hd). cbn. auto.
Qed.

Lemma window_ok_step args fh ev st w w' :
  window_ok fh st w ->
  heap w' = (heap w ++ [fresh_payload args ev w])%list ->
  let p := chosen_payload args st (length (heap w)) (after_injection args ev w) in
  dest_lines fh w' = (dest_lines fh w ++ [payload_line p w'])%list ->
  window_ok fh {| emitted := emitted st + 1;
                  previously_emitted := retain (previously_emitted st) p |} w'.
Proof.
  intros Hok Hh p Hd.
  destruct (emitted_payload_stored args fh ev st w w' Hok Hh) as (d & Hp & Hline & _).
  fold p in Hp, Hline.
  unfold window_ok. cbn [previously_emitted]. apply retain_Forall.
  - eapply Forall_impl; [exact Hok|]. intros r (d' & Hr & Hin).
    exists d'. split; [rewrite Hh; now apply lookup_app_l_Some|].
    rewrite Hd. apply in_or_app. now left.
  - exists d. split; [exact Hp|]. rewrite Hd, Hline. apply in_or_app. right. now left.
Qed.

Lemma run_inv_io fh w0 st w w' : io_of w' = io_of w -> run_inv fh w0 st w -> run_inv fh w0 st w'.
Proof.
  unfold io_of, run_inv, window_ok. intros Hio. injection Hio as He Hh Ho Hs Hl _.
  assert (Hd : forall b, dest_lines b w' = dest_lines b w)
    by (intros []; cbn [dest_lines]; assumption).
  rewrite !Hd, Hh, Hs, He. auto.
Qed.

Lemma run_inv_initial fh w0 : run_inv fh w0 initial_state w0.
Proof.
  unfold run_inv. cbn [initial_state emitted previously_emitted length].
  split; [lia|]. split; [reflexivity|]. split; [constructor|].
  split; [exists []; rewrite app_nil_r; repeat split; constructor|]. auto.
Qed.

Lemma run_inv_step args fh w0 ev st w :
  pace_error args (env w0) = None ->
  run_inv fh w0 st w -> returns (pass args fh ev st) w (run_inv fh w0).
Proof.
  intros Hpace (Hpos & Hsize & Hok & (lines & Hlines & Hcount & Hall) & Hother & Hfs & Henv).
  destruct (pass_spec args fh ev st w) as (w' & Hrun & He & Hh & Hd & Ho & Hs & _);
    [now rewrite Henv|].
  eapply returns_eq; [exact Hrun|].
  unfold run_inv. cbn [emitted previously_emitted].
  split; [lia|]. split; [now apply window_size_step|].
  split; [now apply (window_ok_step args fh ev st w w')|].
  split.
  - eexists (lines ++ [_])%list. rewrite Hd, Hlines, <- app_assoc. split; [reflexivity|].
    split; [rewrite length_app; cbn [length]; lia|].
    apply Forall_app. split; [exact Hall|]. constructor; [apply payload_line_ok | constructor].
  - rewrite Ho, Hs, He. auto.
Qed.

(** ** Whole runs *)

Lemma while_emitting_done fuel args fh st w :
  (events args <= emitted st)%Z -> while_emitting fuel args fh st w = Ok (Some st) w.
Proof.
  intros H. destruct fuel; cbn [while_emitting];
    destruct (Z.ltb_spec (emitted st) (events args)); try lia; reflexivity.
Qed.

Lemma while_emitting_run args fh w0 :
  (1 <= max_events_per_session args)%Z ->
  pace_error args (env w0) = None ->
  returns (while_emitting (Z.to_nat (events args)) args fh initial_state) w0
    (fun r w' => exists st, r = Some st /\ run_inv fh w0 st w' /\
                            emitted st = Z.max 0 (events args)).
Proof.
  intros Hmax Hpace.
  apply (while_emitting_inv args fh (run_inv fh w0)).
  - apply run_inv_io.
  - intros ev st w HI _. now apply run_inv_step.
  - exact Hmax.
  - apply run_inv_initial.
  - cbn [initial_state emitted]. lia.
Qed.

Lemma while_emitting_no_session args fh w0 :
  (0 < events args)%Z -> (max_events_per_session args < 1)%Z ->
  exists w', while_emitting (Z.to_nat (events args)) args fh initial_state w0
               = Raised ValueError w' /\ io_of w' = io_of w0.
Proof.
  intros Hev Hmax. destruct (Z.to_nat (events args)) as [|fuel] eqn:E; [lia|].
  cbn [while_emitting initial_state emitted].
  destruct (Z.ltb_spec 0 (events args)); [|lia].
  unfold bind at 1. cbn [new_user_id bind uuid4_hex ret]. unfold bind at 1.
  destruct (generate_session_events_raises
              ("usr_" +:+ substring 0 16 (uuid_hex (env w0) (uuid_pos w0)))
              (max_events_per_session args) (with_uuid_pos (S (uuid_pos w0)) w0) Hmax)
    as (w' & -> & Hio).
  exists w'. split; [reflexivity | exact Hio].
Qed.

Lemma upto_last_slash_bare (p : string) :
  has_char "/" p = false -> upto_last_slash p = "".
Proof.
  induction p as [|c p IH]; [reflexivity|]. cbn [has_char upto_last_slash].
  intros H. apply orb_false_iff in H as [Hc Hp]. now rewrite (IH Hp), Hc.
Qed.

Lemma dirname_bare (p : string) : has_char "/" p = false -> dirname p = "".
Proof. intros H. unfold dirname. now rewrite (upto_last_slash_bare p H). Qed.

Lemma open_output_cases (path : string) (w : World) :
  (path = "-" /\ open_output path w = Ok false w) \/
  (path <> "-" /\ open_output path w = Ok true (with_file Opened [] w)) \/
  (path <> "-" /\ exists e, open_output path w = Raised e w).
Proof.
  unfold open_output. destruct (String.eqb_spec path "-") as [->|Hne]; [left; auto|].
  right. unfold bind, os_makedirs, open_w, ret.
  destruct (dirname path) as [|c r].
  - right. eauto.
  - destruct (makedirs_result (env w) (String c r)); [right; eauto|].
    destruct (open_result (env w) path); [right; eauto | left; auto].
Qed.

Lemma main_state_unfold args w :
  main_state args w =
    match open_output (out args) (after_banner args w) with
    | Ok fh w1 =>
        try_finally
          (while_emitting (Z.to_nat (events args)) args fh initial_state)
          (close_output fh) w1
    | Raised e w1 => Raised e w1
    end.
Proof. reflexivity. Qed.

Lemma file_state_close (fh : bool) (w : World) :
  file_state (close_output fh w) = if fh then Closed else file_state w.
Proof. destruct fh; reflexivity. Qed.

Lemma dest_lines_close (b fh : bool) (w : World) :
  dest_lines b (close_output fh w) = dest_lines b w.
Proof. destruct b, fh; reflexivity. Qed.

(** When the pause is refused, the first pass writes its record and the
    exception of the pause ends the loop. *)
Lemma while_emitting_pause_fails args fh w0 e :
  (0 < events args)%Z -> (1 <= max_events_per_session args)%Z ->
  pace_error args (env w0) = Some e ->
  raises (while_emitting (Z.to_nat (events args)) args fh initial_state) w0
    (fun e' w' =>
       e' = e /\
       exists line,
         dest_lines fh w' = (dest_lines fh w0 ++ [line])%list /\ line_ok line /\
         dest_lines (negb fh) w' = dest_lines (negb fh) w0 /\
         file_state w' = file_state w0).
Proof.
  intros Hev Hmax Hpace. destruct (Z.to_nat (events args)) as [|fuel] eqn:E; [lia|].
  cbn [while_emitting initial_state emitted].
  destruct (Z.ltb_spec 0 (events args)); [|lia].
  apply raises_bind_r. eapply returns_eq; [reflexivity|].
  apply raises_bind_r.
  eapply returns_mono; [apply generate_session_events_spec, Hmax|].
  intros evs w2 (Hio2 & first & rest & -> & _). cbv beta.
  unfold io_of in Hio2. injection Hio2 as He2 Hh2 Ho2 Hs2 Hl2 _.
  cbn [env heap stdout file_state file_lines with_uuid_pos] in He2, Hh2, Ho2, Hs2, Hl2.
  assert (Hd2 : forall b, dest_lines b w2 = dest_lines b w0)
    by (intros []; cbn [dest_lines]; assumption).
  apply raises_bind_l. cbn [for_session emitted initial_state].
  destruct (Z.leb_spec (events args) 0); [lia|].
  apply raises_bind_l. unfold pass. apply raises_bind_r.
  destruct (emit_one_spec args fh first {| emitted := 0; previously_emitted := [] |} w2)
    as (w3 & Hrun & He & Hh & Hd & Ho & Hs).
  eapply returns_eq; [exact Hrun|].
  apply raises_bind_l. unfold raises.
  rewrite (pace_fails args w3 e) by (now rewrite He, He2).
  split; [reflexivity|]. eexists. rewrite Hd, Ho, Hs, !Hd2, Hs2.
  split; [reflexivity|]. split; [apply payload_line_ok | auto].
Qed.

(** The outcome of every run, by cases on the output destination, on the
    two integer flags and on the pause. *)
Lemma main_state_run args w :
  match open_output (out args) (after_banner args w) with
  | Raised e w1 => w1 = after_banner args w /\ main_state args w = Raised e w1
  | Ok fh w1 =>
      exists w' lines,
        world_of (main_state args w) = w' /\
        dest_lines fh w' = (dest_lines fh w1 ++ lines)%list /\
        Forall line_ok lines /\
        dest_lines (negb fh) w' = dest_lines (negb fh) w1 /\
        file_state w' = (if fh then Closed else file_state w1) /\
        if (events args <=? 0)%Z then
          main_state args w = Ok (Some initial_state) w' /\ lines = []
        else if (max_events_per_session args <? 1)%Z then
          main_state args w = Raised ValueError w' /\ lines = []
        else
          match pace_error args (env w) with
          | None =>
              exists st,
                main_state args w = Ok (Some st) w' /\
                emitted st = events args /\
                Z.of_nat (length lines) = events args /\
                Z.of_nat (length (previously_emitted st)) = window_size (events args)
          | Some e => main_state args w = Raised e w' /\ length lines = 1
          end
  end.
Proof.
  rewrite main_state_unfold.
  destruct (open_output_cases (out args) (after_banner args w))
    as [[_ ->] | [[_ ->] | [_ [e ->]]]]; [| | auto].
  all: match goal with |- context [try_finally _ (close_output ?b) ?w1] =>
         set (fh := b); set (w0 := w1) end.
  all: assert (Henv : env w0 = env w) by reflexivity.
  all: unfold try_finally.
  all: destruct (Z.leb_spec (events args) 0) as [Hev|Hev].
  1, 3: exists (close_output fh w0), [];
    rewrite while_emitting_done by (cbn; lia); cbn [world_of];
    rewrite !dest_lines_close, app_nil_r, file_state_close;
    repeat split; constructor.
  all: destruct (Z.ltb_spec (max_events_per_session args) 1) as [Hmax|Hmax].
  1, 3: destruct (while_emitting_no_session args fh w0 Hev Hmax) as (w' & Hrun & Hio);
    exists (close_output fh w'), []; rewrite Hrun; cbn [world_of];
    rewrite !dest_lines_close, app_nil_r, file_state_close;
    unfold io_of in Hio; injection Hio as _ _ Ho Hfs Hl _;
    rewrite Hfs; subst fh; cbn [dest_lines negb]; repeat split; auto.
  all: destruct (pace_error args (env w)) as [e|] eqn:Hpace; rewrite <- Henv in Hpace.
  1, 3: pose proof (while_emitting_pause_fails args fh w0 e Hev Hmax Hpace) as H;
    apply raises_exists in H;
    destruct H as (e' & w' & Hrun & -> & line & Hd & Hline & Ho & Hfs);
    exists (close_output fh w'), [line]; rewrite Hrun; cbn [world_of];
    rewrite !dest_lines_close, file_state_close, Hfs;
    repeat split; auto.
  all: pose proof (while_emitting_run args fh w0 Hmax Hpace) as H;
    apply returns_exists in H;
    destruct H as (r & w' & Hrun & st & -> & Hinv & Hc);
    destruct Hinv as (_ & Hsize & _ & (lines & Hl & Hn & Hall) & Ho & Hfs & _);
    exists (close_output fh w'), lines; rewrite Hrun; cbn [world_of];
    rewrite !dest_lines_close, file_state_close, Hfs;
    repeat split; try assumption;
    exists st; rewrite Hsize, Hc, Hn; repeat split; try lia; f_equal; lia.
Qed.

(** ** Start-up and exit *)

Lemma main_unfold args w :
  main args w =
    match main_state args w with
    | Ok _ w' => Ok tt w'
    | Raised e w' => Raised e w'
    end.
Proof. reflexivity. Qed.

(** C10.  Whenever [--out] is a bare file name (no slash, and not the
    dash that selects standard output), [dirname] returns the empty string,
    [os.makedirs] raises on it, and the exception leaves [main] when
    nothing but the banner has been printed: no record is emitted and no
    file is opened, whatever the file system would have answered. *)
Theorem bare_filename_raises (args : Namespace) (w : World) :
  out args <> "-" ->
  has_char "/" (out args) = false ->
  dirname (out args) = "" /\
  main args w = Raised FileNotFoundError (after_banner args w).
Proof.
  intros Hdash Hbare. split; [now apply dirname_bare|].
  rewrite main_unfold, main_state_unfold. unfold open_output.
  destruct (String.eqb_spec (out args) "-") as [E|_]; [contradiction|].
  unfold bind. rewrite (dirname_bare _ Hbare). reflexivity.
Qed.

Lemma bare_filename_raises_witness :
  dirname (out sample_args_bare) = "" /\
  main sample_args_bare sample_world
    = Raised FileNotFoundError (after_banner sample_args_bare sample_world).
Proof.
  apply (bare_filename_raises sample_args_bare sample_world);
    [discriminate | reflexivity].
Defined.

Lemma main_of_state args w :
  world_of (main args w) = world_of (main_state args w) /\
  exit_code (main args w) = exit_code (main_state args w) /\
  (forall r w', main_state args w = Ok r w' -> main args w = Ok tt w') /\
  (forall e w', main_state args w = Raised e w' -> main args w = Raised e w').
Proof.
  rewrite main_unfold. destruct (main_state args w); repeat split; congruence.
Qed.

Lemma open_output_env (path : string) (w0 : World) (fh : bool) (w1 : World) :
  open_output path w0 = Ok fh w1 -> env w1 = env w0 /\ slept_ms w1 = slept_ms w0.
Proof.
  intros H. destruct (open_output_cases path w0) as [[_ E] | [[_ E] | [_ [e E]]]];
    rewrite E in H; [injection H as _ <- | injection H as _ <- | discriminate];
    split; reflexivity.
Qed.

Lemma run_inv_env fh w0 st w : run_inv fh w0 st w -> env w = env w0.
Proof. intros (_ & _ & _ & _ & _ & _ & H). exact H. Qed.

(** A complete run keeps [run_inv] and every other invariant [X] of the
    passes. *)
Lemma main_state_with (X : LoopState -> World -> Prop) args w fh w1 :
  open_output (out args) (after_banner args w) = Ok fh w1 ->
  (1 <= max_events_per_session args)%Z ->
  pace_error args (env w) = None ->
  (forall st w0 w', io_of w' = io_of w0 -> X st w0 -> X st w') ->
  (forall ev st w0,
      pace_error args (env w0) = None -> X st w0 ->
      returns (pass args fh ev st) w0 X) ->
  X initial_state w1 ->
  exists st w',
    main_state args w = Ok (Some st) (close_output fh w') /\
    run_inv fh w1 st w' /\ X st w' /\ emitted st = Z.max 0 (events args).
Proof.
  intros Hopen Hmax Hpace Xio Xstep Xinit.
  destruct (open_output_env _ _ _ _ Hopen) as [Henv _].
  change (env (after_banner args w)) with (env w) in Henv. rewrite <- Henv in Hpace.
  rewrite main_state_unfold, Hopen. unfold try_finally.
  pose proof (while_emitting_inv args fh (fun st w => run_inv fh w1 st w /\ X st w)) as H.
  specialize (H ltac:(intros st0 w0 w0' Hio [H1 H2]; split;
                       [now apply (run_inv_io fh w1 st0 w0) | now apply (Xio st0 w0)])).
  specialize (H ltac:(intros ev st0 w0 [H1 H2] _; apply returns_and;
                       [now apply run_inv_step |
                        apply Xstep; [now rewrite (run_inv_env _ _ _ _ H1) | exact H2]])).
  specialize (H (Z.to_nat (events args)) initial_state w1 Hmax
                (conj (run_inv_initial fh w1) Xinit) ltac:(cbn; lia)).
  apply returns_exists in H.
  destruct H as (r & w' & -> & st & -> & [Hrun HX] & Hc).
  exists st, w'. cbn [initial_state emitted] in Hc. auto.
Qed.



(** A pause of [10^30] milliseconds is refused: the run ends with status 1
    after the banner and one record.  Beyond [2^1024] milliseconds it is
    the division by 1000.0 that fails, whatever the platform. *)
Lemma refused_pause_ends_run :
  raises (main sample_args_huge) sample_world
    (fun e w' => e = OverflowError /\ length (stdout w') = 2) /\
  exit_code (main sample_args_huge sample_world) = 1%Z /\
  float_of_int_fails (2 ^ 1024) = true.
Proof. vm_compute. repeat split. Qed.

(** ** The output destination *)

Lemma banner_not_json (fr : pyfloat -> string) (args : Namespace) :
  compact_json_object (banner fr args) = false.
Proof. reflexivity. Qed.

(** C5 on standard output.  With [--out -] the banner goes to the same
    stream as the records: the stream holds the banner, which is not JSON,
    and then the record lines.  When the pause is accepted the run
    completes and the records are N for [--events] N, N + 1 lines in all;
    when the pause raises, the run ends after its first record. *)
Theorem stdout_run_starts_with_banner (args : Namespace) (w : World) :
  out args = "-" ->
  (0 <= events args)%Z ->
  (1 <= max_events_per_session args)%Z ->
  exists lines,
    stdout (world_of (main args w))
      = (stdout w ++ banner (float_repr (env w)) args :: lines)%list /\
    Forall line_ok lines /\
    compact_json_object (banner (float_repr (env w)) args) = false /\
    match pace_error args (env w) with
    | None =>
        main args w = Ok tt (world_of (main args w)) /\
        Z.of_nat (length lines) = events args
    | Some e =>
        if (events args =? 0)%Z
        then main args w = Ok tt (world_of (main args w)) /\ lines = []
        else main args w = Raised e (world_of (main args w)) /\ length lines = 1
    end.
Proof.
  intros Hout Hev Hmax.
  pose proof (main_state_run args w) as H.
  destruct (main_of_state args w) as (Hw & _ & Hok & Hraise).
  destruct (open_output_cases (out args) (after_banner args w))
    as [[_ E] | [[Hne _] | [Hne _]]]; try congruence.
  rewrite E in H. destruct H as (w' & lines & Hw' & Hd & Hall & _ & _ & Hc).
  rewrite Hw, Hw'. exists lines.
  cbn [dest_lines after_banner stdout with_stdout] in Hd.
  split; [rewrite Hd, <- app_assoc; reflexivity|]. split; [exact Hall|].
  split; [apply banner_not_json|].
  destruct (Z.leb_spec (events args) 0) as [H0|H0].
  - destruct Hc as [Hrun ->]. apply Hok in Hrun.
    destruct (pace_error args (env w)).
    + destruct (Z.eqb_spec (events args) 0); [auto | lia].
    + split; [exact Hrun | cbn [length]; lia].
  - destruct (Z.ltb_spec (max_events_per_session args) 1); [lia|].
    destruct (pace_error args (env w)).
    + destruct Hc as [Hrun Hn]. apply Hraise in Hrun.
      destruct (Z.eqb_spec (events args) 0); [lia | auto].
    + destruct Hc as (st & Hrun & _ & Hn & _). apply Hok in Hrun. auto.
Qed.

Lemma stdout_run_starts_with_banner_witness :
  exists lines,
    stdout (world_of (main sample_args sample_world))
      = (stdout sample_world
         ++ banner (float_repr (env sample_world)) sample_args :: lines)%list /\
    Forall line_ok lines /\
    compact_json_object (banner (float_repr (env sample_world)) sample_args) = false /\
    match pace_error sample_args (env sample_world) with
    | None =>
        main sample_args sample_world
          = Ok tt (world_of (main sample_args sample_world)) /\
        Z.of_nat (length lines) = events sample_args
    | Some e =>
        if (events sample_args =? 0)%Z
        then main sample_args sample_world
               = Ok tt (world_of (main sample_args sample_world)) /\ lines = []
        else main sample_args sample_world
               = Raised e (world_of (main sample_args sample_world)) /\
             length lines = 1
    end.
Proof.
  apply (stdout_run_starts_with_banner sample_args sample_world);
    [reflexivity | discriminate | discriminate].
Defined.



(** ** Fault injection *)

Lemma dict_set_event_ts (ts : string) (ev : ClickstreamEvent) :
  dict_set "event_ts" (JStr ts) (asdict ev) = asdict (with_event_ts ts ev).
Proof. reflexivity. Qed.

Lemma float_lt_one (u : Q) : (u < 1)%Q -> float_lt u (Finite 1) = true.
Proof.
  intros Hu. unfold float_lt. apply negb_true_iff.
  destruct (Qle_bool 1 u) eqn:E; [|reflexivity].
  apply Qle_bool_iff in E. exfalso. apply (Qlt_not_le _ _ Hu E).
Qed.

(** Every amount between 60 and 3600 seconds is the result of exactly one
    of the 3541 values that [_randbelow(3541)] can return. *)
Lemma oo_delta_covers (d : Z) :
  (60 <= d <= 3600)%Z ->
  exists r, (r < 3541)%N /\ (60 + Z.of_N (r mod 3541))%Z = d /\
            forall r', (r' < 3541)%N -> (60 + Z.of_N (r' mod 3541))%Z = d -> r' = r.
Proof.
  intros Hd. exists (Z.to_N (d - 60)). split; [lia|].
  split; [rewrite N.mod_small by lia; lia|].
  intros r' Hr' E. rewrite N.mod_small in E by lia. lia.
Qed.

(** C2.  In every pass of the loop the out-of-order step runs on the
    dictionary of the synthesized event and before the duplicate check:
    the rest of the pass starts from the world that the step leaves.  The
    step draws [random.random()]; when the draw is below [oo_rate] the
    timestamp of the fresh payload becomes the clock reading of that moment
    minus [randint(60, 3600)] seconds, otherwise the payload is left as it
    is.  A draw is always below 1.0, so with [oo_rate] 1.0 the replacement
    happens in every pass. *)
Theorem out_of_order_injection (args : Namespace) (fh : bool)
    (ev : ClickstreamEvent) (st : LoopState) (w : World) :
  emit_one args fh ev st w
    = emit_payload args fh st (length (heap w)) (after_injection args ev w) /\
  heap (after_injection args ev w) =
    (heap w ++
     [asdict
        (if float_lt (unit_draw w) (oo_rate args)
         then with_event_ts
                (isoformat_ms (wall_clock (env w) (clock_pos w) - oo_delta w * 1000000))
                ev
         else ev)])%list /\
  (60 <= oo_delta w <= 3600)%Z /\
  oo_delta w = (60 + Z.of_N (rand_raw (env w) (S (rand_pos w)) mod 3541))%Z /\
  float_lt (unit_draw w) (Finite 1) = true.
Proof.
  split; [apply emit_one_unfold|].
  destruct (after_injection_spec args ev w) as (_ & _ & _ & _ & _ & Hh).
  split.
  - rewrite Hh. unfold fresh_payload, oo_taken, oo_event_ts.
    destruct (float_lt (unit_draw w) (oo_rate args)); [|reflexivity].
    now rewrite dict_set_event_ts.
  - split; [apply oo_delta_range|]. split; [reflexivity|].
    apply float_lt_one, unit_draw_range.
Qed.

(** With [dup_rate] 1.0 the duplicate branch is taken as soon as the
    window is not empty. *)
Lemma dup_taken_one args st wi :
  dup_rate args = Finite 1 -> previously_emitted st <> [] ->
  dup_taken args st wi = true.
Proof.
  intros Hrate Hne. unfold dup_taken. rewrite Hrate.
  destruct (previously_emitted st); [congruence|].
  apply float_lt_one, unit_draw_range.
Qed.

(** What a pass does when the duplicate branch is taken. *)
Lemma duplicate_emission args fh ev st w :
  window_ok fh st w ->
  dup_taken args st (after_injection args ev w) = true ->
  let window := previously_emitted st in
  let i := dup_index st (after_injection args ev w) in
  exists p d w',
    i < length window /\ window !! i = Some p /\
    heap w !! p = Some d /\
    In (json_dumps (JDict d)) (dest_lines fh w) /\
    emit_one args fh ev st w =
      Ok {| emitted := emitted st + 1; previously_emitted := retain window p |} w' /\
    heap w' = (heap w ++ [fresh_payload args ev w])%list /\
    dest_lines fh w' = (dest_lines fh w ++ [json_dumps (JDict d)])%list /\
    heap w' !! p = Some d /\
    p < length (heap w) /\
    ~ In (length (heap w)) (retain window p).
Proof.
  intros Hok Htaken window i.
  destruct (emit_one_spec args fh ev st w) as (w' & Hrun & _ & Hh & Hd & _).
  destruct (chosen_payload_cases args st (length (heap w)) (after_injection args ev w))
    as [[Hno _] | (_ & Hi & Hp)]; [congruence|].
  set (p := chosen_payload args st (length (heap w)) (after_injection args ev w)) in *.
  pose proof Hok as Hall. unfold window_ok in Hall. rewrite Forall_forall in Hall.
  destruct (Hall p (list_elem_of_lookup_2 _ _ _ Hp)) as (d & Hpd & Hin).
  assert (Hlt : p < length (heap w)) by (eapply lookup_lt_Some; exact Hpd).
  assert (Hpd' : heap w' !! p = Some d) by (rewrite Hh; now apply lookup_app_l_Some).
  exists p, d, w'. repeat split; try assumption.
  - rewrite Hd. unfold payload_line. now rewrite Hpd'.
  - intros Hfresh.
    assert (Hbound : Forall (fun r => r < length (heap w)) (retain window p)).
    { apply retain_Forall; [|exact Hlt].
      eapply Forall_impl; [exact Hok|]. intros r (d' & Hr & _).
      eapply lookup_lt_Some; exact Hr. }
    rewrite Forall_forall in Hbound. apply list_elem_of_In in Hfresh.
    specialize (Hbound _ Hfresh). lia.
Qed.

(** C1.  When the duplicate branch is taken (the window is not empty and
    the draw is below [dup_rate]), the record that is written is the one
    that [random.choice] picks in the window, at the index that
    [_randbelow(len(window))] returns: the very dictionary that was stored
    before this pass, so that the line is identical to one that is already
    on the destination, identifier and timestamp included.  The freshly
    synthesized payload is neither written nor retained. *)
Theorem duplicate_reemits_window_record (args : Namespace) (fh : bool)
    (ev : ClickstreamEvent) (st : LoopState) (w : World) :
  window_ok fh st w ->
  dup_taken args st (after_injection args ev w) = true ->
  exists p d w',
    dup_index st (after_injection args ev w) < length (previously_emitted st) /\
    previously_emitted st !! dup_index st (after_injection args ev w) = Some p /\
    heap w !! p = Some d /\
    In (json_dumps (JDict d)) (dest_lines fh w) /\
    emit_one args fh ev st w =
      Ok {| emitted := emitted st + 1;
            previously_emitted := retain (previously_emitted st) p |} w' /\
    dest_lines fh w' = (dest_lines fh w ++ [json_dumps (JDict d)])%list /\
    heap w' !! p = Some d /\
    p <> length (heap w) /\
    ~ In (length (heap w)) (retain (previously_emitted st) p).
Proof.
  intros Hok Htaken.
  destruct (duplicate_emission args fh ev st w Hok Htaken)
    as (p & d & w' & Hi & Hp & Hd & Hin & Hrun & _ & Hline & Hd' & Hlt & Hfresh).
  exists p, d, w'. repeat split; try assumption. lia.
Qed.

Lemma sample_window_ok : window_ok false sample_state1 sample_world1.
Proof.
  unfold window_ok. vm_compute previously_emitted.
  constructor; [|constructor].
  eexists. split; [vm_compute; reflexivity|]. vm_compute. left. reflexivity.
Qed.

Lemma duplicate_reemits_window_record_witness :
  exists p d w',
    dup_index sample_state1 (after_injection sample_args sample_event sample_world1)
      < length (previously_emitted sample_state1) /\
    previously_emitted sample_state1
      !! dup_index sample_state1 (after_injection sample_args sample_event sample_world1)
      = Some p /\
    heap sample_world1 !! p = Some d /\
    In (json_dumps (JDict d)) (dest_lines false sample_world1) /\
    emit_one sample_args false sample_event sample_state1 sample_world1 =
      Ok {| emitted := emitted sample_state1 + 1;
            previously_emitted := retain (previously_emitted sample_state1) p |} w' /\
    dest_lines false w' = (dest_lines false sample_world1 ++ [json_dumps (JDict d)])%list /\
    heap w' !! p = Some d /\
    p <> length (heap sample_world1) /\
    ~ In (length (heap sample_world1)) (retain (previously_emitted sample_state1) p).
Proof.
  apply (duplicate_reemits_window_record
           sample_args false sample_event sample_state1 sample_world1);
    [apply sample_window_ok | vm_compute; reflexivity].
Defined.

(** C9.  When the duplicate branch is taken, the fresh dictionary, with
    the out-of-order timestamp if one was set in this pass, stays behind at
    its own address: the line that is written is that of the chosen
    dictionary, which no step of this pass has touched, and it is the
    chosen address that is appended to the window, where it already sits at
    the drawn index. *)
Theorem duplicate_discards_fresh_payload (args : Namespace) (fh : bool)
    (ev : ClickstreamEvent) (st : LoopState) (w : World) :
  window_ok fh st w ->
  dup_taken args st (after_injection args ev w) = true ->
  exists i p d w',
    i < length (previously_emitted st) /\
    previously_emitted st !! i = Some p /\
    heap w !! p = Some d /\
    emit_one args fh ev st w =
      Ok {| emitted := emitted st + 1;
            previously_emitted := retain (previously_emitted st) p |} w' /\
    heap w' = (heap w ++ [fresh_payload args ev w])%list /\
    dest_lines fh w' = (dest_lines fh w ++ [json_dumps (JDict d)])%list /\
    retain (previously_emitted st) p =
      (if Nat.ltb (length (previously_emitted st)) 5000
       then previously_emitted st ++ [p]
       else drop (length (previously_emitted st) - 1999) (previously_emitted st ++ [p]))%list /\
    (previously_emitted st ++ [p])%list !! i = Some p /\
    (previously_emitted st ++ [p])%list !! length (previously_emitted st) = Some p /\
    ~ In (length (heap w)) (retain (previously_emitted st) p).
Proof.
  intros Hok Htaken.
  destruct (duplicate_emission args fh ev st w Hok Htaken)
    as (p & d & w' & Hi & Hp & Hd & Hin & Hrun & Hh & Hline & Hd' & Hlt & Hfresh).
  exists (dup_index st (after_injection args ev w)), p, d, w'.
  repeat split; try assumption.
  - apply retain_eq.
  - now apply lookup_app_l_Some.
  - rewrite lookup_app_r, Nat.sub_diag by lia. reflexivity.
Qed.

Lemma duplicate_discards_fresh_payload_witness :
  exists i p d w',
    i < length (previously_emitted sample_state1) /\
    previously_emitted sample_state1 !! i = Some p /\
    heap sample_world1 !! p = Some d /\
    emit_one sample_args false sample_event sample_state1 sample_world1 =
      Ok {| emitted := emitted sample_state1 + 1;
            previously_emitted := retain (previously_emitted sample_state1) p |} w' /\
    heap w' = (heap sample_world1 ++ [fresh_payload sample_args sample_event sample_world1])%list /\
    dest_lines false w' = (dest_lines false sample_world1 ++ [json_dumps (JDict d)])%list /\
    retain (previously_emitted sample_state1) p =
      (if Nat.ltb (length (previously_emitted sample_state1)) 5000
       then previously_emitted sample_state1 ++ [p]
       else drop (length (previously_emitted sample_state1) - 1999)
                 (previously_emitted sample_state1 ++ [p]))%list /\
    (previously_emitted sample_state1 ++ [p])%list !! i = Some p /\
    (previously_emitted sample_state1 ++ [p])%list
      !! length (previously_emitted sample_state1) = Some p /\
    ~ In (length (heap sample_world1)) (retain (previously_emitted sample_state1) p).
Proof.
  apply (duplicate_discards_fresh_payload
           sample_args false sample_event sample_state1 sample_world1);
    [apply sample_window_ok | vm_compute; reflexivity].
Defined.

(** C3.  In every pass the window becomes [retain window p], where [p] is
    the payload of the pass: the one whose line the pass writes.  While the
    window holds fewer than 5000 addresses that is the window with [p]
    appended, so that every payload written is kept; when it holds 5000 the
    appended list of 5001 is cut to its last 2000, which are the 1999 most
    recent ones and [p].  The size follows [window_size] of the emission
    counter: it is the counter up to 5000, it is 2000 right after the
    5001st emission, and it never exceeds 5000 at the end of a pass. *)
Theorem retained_window_policy (args : Namespace) (fh : bool)
    (ev : ClickstreamEvent) (st : LoopState) (w : World) :
  (0 <= emitted st)%Z ->
  Z.of_nat (length (previously_emitted st)) = window_size (emitted st) ->
  exists p w',
    p = chosen_payload args st (length (heap w)) (after_injection args ev w) /\
    emit_one args fh ev st w =
      Ok {| emitted := emitted st + 1;
            previously_emitted := retain (previously_emitted st) p |} w' /\
    dest_lines fh w' = (dest_lines fh w ++ [payload_line p w'])%list /\
    retain (previously_emitted st) p =
      (if Nat.ltb (length (previously_emitted st)) 5000
       then previously_emitted st ++ [p]
       else drop 3001 (previously_emitted st ++ [p]))%list /\
    last (retain (previously_emitted st) p) = Some p /\
    length (retain (previously_emitted st) p) =
      (if Nat.ltb (length (previously_emitted st)) 5000
       then S (length (previously_emitted st)) else 2000) /\
    length (retain (previously_emitted st) p) <= 5000 /\
    Z.of_nat (length (retain (previously_emitted st) p)) = window_size (emitted st + 1) /\
    window_size 5000 = 5000%Z /\
    window_size 5001 = 2000%Z.
Proof.
  intros Hpos Hsize.
  destruct (emit_one_spec args fh ev st w) as (w' & Hrun & _ & _ & Hd & _).
  eexists _, w'. split; [reflexivity|]. split; [exact Hrun|]. split; [exact Hd|].
  set (p := chosen_payload args st (length (heap w)) (after_injection args ev w)).
  pose proof (window_size_range (emitted st) Hpos) as Hr.
  assert (Hlen : length (previously_emitted st) <= 5000) by lia.
  assert (Hret : retain (previously_emitted st) p =
                 (if Nat.ltb (length (previously_emitted st)) 5000
                  then previously_emitted st ++ [p]
                  else drop 3001 (previously_emitted st ++ [p]))%list).
  { rewrite retain_eq. destruct (Nat.ltb_spec (length (previously_emitted st)) 5000);
      [reflexivity|]. f_equal. lia. }
  split; [exact Hret|]. split.
  - rewrite Hret. destruct (Nat.ltb_spec (length (previously_emitted st)) 5000).
    + apply last_snoc.
    + rewrite drop_app_le by lia. apply last_snoc.
  - split; [apply retain_length|]. split.
    + rewrite retain_length.
      destruct (Nat.ltb_spec (length (previously_emitted st)) 5000); lia.
    + split; [now apply window_size_step|]. split; reflexivity.
Qed.

Lemma retained_window_policy_witness :
  exists p w',
    p = chosen_payload sample_args_clean sample_state_full
          (length (heap sample_world_full))
          (after_injection sample_args_clean sample_event sample_world_full) /\
    emit_one sample_args_clean false sample_event sample_state_full sample_world_full =
      Ok {| emitted := emitted sample_state_full + 1;
            previously_emitted := retain (previously_emitted sample_state_full) p |} w' /\
    dest_lines false w' = (dest_lines false sample_world_full ++ [payload_line p w'])%list /\
    retain (previously_emitted sample_state_full) p =
      (if Nat.ltb (length (previously_emitted sample_state_full)) 5000
       then previously_emitted sample_state_full ++ [p]
       else drop 3001 (previously_emitted sample_state_full ++ [p]))%list /\
    last (retain (previously_emitted sample_state_full) p) = Some p /\
    length (retain (previously_emitted sample_state_full) p) =
      (if Nat.ltb (length (previously_emitted sample_state_full)) 5000
       then S (length (previously_emitted sample_state_full)) else 2000) /\
    length (retain (previously_emitted sample_state_full) p) <= 5000 /\
    Z.of_nat (length (retain (previously_emitted sample_state_full) p))
      = window_size (emitted sample_state_full + 1) /\
    window_size 5000 = 5000%Z /\
    window_size 5001 = 2000%Z.
Proof.
  apply (retained_window_policy sample_args_clean false sample_event
           sample_state_full sample_world_full);
    [discriminate | vm_compute; reflexivity].
Defined.



(** Every slot of a window of [n] records is the result of exactly one of
    the [n] values that [_randbelow(n)] can return. *)
Lemma window_index_covers (n i : nat) :
  i < n ->
  exists r, (r < N.of_nat n)%N /\ N.to_nat (r mod N.of_nat n) = i /\
            forall r', (r' < N.of_nat n)%N -> N.to_nat (r' mod N.of_nat n) = i -> r' = r.
Proof.
  intros Hi. exists (N.of_nat i). split; [lia|].
  split; [rewrite N.mod_small by lia; lia|].
  intros r' Hr' E. rewrite N.mod_small in E by lia. lia.
Qed.

(** ** Runs that only duplicate *)

Lemma payload_line_stable (r : ref) (w w' : World) (d : dict) :
  heap w' = (heap w ++ [d])%list -> r < length (heap w) ->
  payload_line r w' = payload_line r w.
Proof.
  intros Hh Hr. unfold payload_line. rewrite Hh.
  destruct (lookup_lt_is_Some_2 _ _ Hr) as [x Hx].
  now rewrite (lookup_app_l_Some _ _ _ _ Hx), Hx.
Qed.

Lemma retain_nonempty (window : list ref) (p : ref) : retain window p <> [].
Proof.
  intros E. pose proof (retain_length window p) as H. rewrite E in H.
  destruct (Nat.ltb (length window) 5000); discriminate.
Qed.

Lemma all_same_inv_io fh w0 st w w' :
  io_of w' = io_of w -> all_same_inv fh w0 st w -> all_same_inv fh w0 st w'.
Proof.
  unfold io_of, all_same_inv, payload_line. intros Hio.
  injection Hio as He Hh Ho Hs Hl _.
  assert (Hd : dest_lines fh w' = dest_lines fh w) by (destruct fh; assumption).
  rewrite Hd, Hh. auto.
Qed.

Lemma all_same_inv_step args fh w0 ev st w :
  dup_rate args = Finite 1 ->
  pace_error args (env w) = None ->
  all_same_inv fh w0 st w -> returns (pass args fh ev st) w (all_same_inv fh w0).
Proof.
  intros Hrate Hpace (lines & Hlines & Hsame & Hwin & Hempty & Hbound).
  destruct (pass_spec args fh ev st w Hpace) as (w' & Hrun & _ & Hh & Hd & _).
  eapply returns_eq; [exact Hrun|].
  set (p := chosen_payload args st (length (heap w)) (after_injection args ev w)) in *.
  assert (Hlen : length (heap w') = S (length (heap w)))
    by (rewrite Hh, length_app; cbn [length]; lia).
  exists (lines ++ [payload_line p w'])%list. cbn [previously_emitted].
  split; [rewrite Hd, Hlines; symmetry; apply app_assoc|].
  destruct (chosen_payload_cases args st (length (heap w)) (after_injection args ev w))
    as [[Hno Hp] | (_ & Hi & Hp)]; fold p in Hp.
  - assert (Hnil : previously_emitted st = []).
    { destruct (previously_emitted st) eqn:E; [reflexivity|].
      rewrite (dup_taken_one args st _ Hrate) in Hno; [discriminate|]. rewrite E. discriminate. }
    rewrite (Hempty Hnil), Hnil. cbn [app].
    split; [intros l l' [<-|[]] [<-|[]]; reflexivity|].
    split; [apply retain_Forall; [constructor | now left]|].
    split; [intros E; now apply retain_nonempty in E|].
    apply retain_Forall; [constructor | lia].
  - pose proof (list_elem_of_lookup_2 _ _ _ Hp) as Hin.
    rewrite Forall_forall in Hwin, Hbound.
    pose proof (Hbound _ Hin) as Hlt.
    assert (Hline : In (payload_line p w') lines)
      by (rewrite (payload_line_stable p w w' _ Hh Hlt); now apply Hwin).
    split.
    { intros l l' Hl Hl'. apply in_app_or in Hl, Hl'.
      destruct Hl as [Hl|[<-|[]]], Hl' as [Hl'|[<-|[]]]; auto. }
    split.
    { apply retain_Forall; [|apply in_or_app; now left].
      apply Forall_forall. intros r Hr. apply in_or_app. left.
      rewrite (payload_line_stable r w w' _ Hh (Hbound _ Hr)). now apply Hwin. }
    split; [intros E; now apply retain_nonempty in E|].
    apply retain_Forall; [|lia].
    apply Forall_forall. intros r Hr. specialize (Hbound _ Hr). lia.
Qed.



(** The text of every payload is one compact JSON object on one line, and
    the bytes of non-ASCII characters are copied as they are. *)
Theorem payload_text_is_compact_json (d : dict) (c : ascii) :
  compact_json_object (json_dumps (JDict d)) = true /\
  has_char newline (json_dumps (JDict d)) = false /\
  (if Nat.leb 128 (nat_of_ascii c)
   then json_dumps (JStr (String c "")) = String dquote (String c (String dquote ""))
   else True).
Proof.
  split; [apply json_dumps_object|]. split; [apply json_dumps_no_newline|].
  destruct (Nat.leb_spec 128 (nat_of_ascii c)) as [H|H]; [|exact I].
  cbn [json_dumps]. unfold encode_str. cbn [escape].
  rewrite escape_char_plain by lia. reflexivity.
Qed.

(** * Further properties *)

(** ** Streams and the file on every exit path *)

(** Whatever the arguments and however the run ends, the banner is the
    first thing printed.  When the output file was opened it is closed at
    the end, also when the loop raises, and standard output holds nothing
    but the banner; when no file was opened (standard output selected, or
    the opening failed) the file is left as it was. *)
Theorem streams_after_any_run (args : Namespace) (w : World) :
  (exists more,
      stdout (world_of (main args w))
      = (stdout w ++ banner (float_repr (env w)) args :: more)%list) /\
  match open_output (out args) (after_banner args w) with
  | Ok true _ =>
      file_state (world_of (main args w)) = Closed /\
      stdout (world_of (main args w))
      = (stdout w ++ [banner (float_repr (env w)) args])%list
  | _ =>
      file_state (world_of (main args w)) = file_state w /\
      file_lines (world_of (main args w)) = file_lines w
  end.
Proof.
  pose proof (main_state_run args w) as H.
  destruct (main_of_state args w) as (Hw & _). rewrite Hw.
  destruct (open_output_cases (out args) (after_banner args w))
    as [[_ E] | [[_ E] | [_ [e E]]]]; rewrite E in *.
  - destruct H as (w' & lines & -> & Hd & _ & Ho & Hfs & _).
    cbn [dest_lines negb after_banner stdout file_lines file_state with_stdout] in *.
    split; [exists lines; rewrite Hd, <- app_assoc; reflexivity | auto].
  - destruct H as (w' & lines & -> & _ & _ & Ho & Hfs & _).
    cbn [dest_lines negb after_banner stdout file_lines file_state
           with_stdout with_file] in *.
    split; [exists []; exact Ho | auto].
  - destruct H as [_ ->]. cbn [world_of]. split; [exists []; reflexivity | auto].
Qed.

(** ** Pacing *)

Lemma slept_inv_io args w0 st w w' :
  io_of w' = io_of w -> slept_inv args w0 st w -> slept_inv args w0 st w'.
Proof.
  unfold io_of, slept_inv. intros Hio. injection Hio as _ _ _ _ _ Hs. now rewrite Hs.
Qed.

Lemma slept_inv_step args fh w0 ev st w :
  pace_error args (env w) = None ->
  slept_inv args w0 st w -> returns (pass args fh ev st) w (slept_inv args w0).
Proof.
  intros Hpace Hinv.
  destruct (pass_spec args fh ev st w Hpace) as (w' & Hrun & _ & _ & _ & _ & _ & Hs).
  eapply returns_eq; [exact Hrun|].
  unfold slept_inv in *. cbn [emitted]. rewrite Hs, Hinv. lia.
Qed.



(** ** The window holds the most recent records *)

Lemma retain_as_drop (window : list ref) (p : ref) :
  let j := if Nat.ltb (length window) 5000 then 0 else length window - 1999 in
  retain window p = drop j (window ++ [p])%list /\
  length (retain window p) = S (length window) - j /\
  j <= length window.
Proof.
  cbv zeta. pose proof (retain_eq window p) as He.
  pose proof (retain_length window p) as Hl.
  destruct (Nat.ltb_spec (length window) 5000);
    (split; [exact He | split; [rewrite Hl; lia | lia]]).
Qed.

Lemma chosen_payload_bound args st w ev :
  Forall (fun r => r < length (heap w)) (previously_emitted st) ->
  chosen_payload args st (length (heap w)) (after_injection args ev w)
    < S (length (heap w)).
Proof.
  intros Hb.
  destruct (chosen_payload_cases args st (length (heap w)) (after_injection args ev w))
    as [[_ ->] | (_ & _ & Hp)]; [lia|].
  rewrite Forall_forall in Hb.
  specialize (Hb _ (list_elem_of_lookup_2 _ _ _ Hp)). lia.
Qed.

Lemma recent_inv_io fh w0 st w w' :
  io_of w' = io_of w -> recent_inv fh w0 st w -> recent_inv fh w0 st w'.
Proof.
  unfold io_of, recent_inv, payload_line. intros Hio.
  injection Hio as He Hh Ho Hs Hl _.
  assert (Hd : dest_lines fh w' = dest_lines fh w) by (destruct fh; assumption).
  rewrite Hd, Hh. auto.
Qed.

Lemma recent_inv_step args fh w0 ev st w :
  pace_error args (env w) = None ->
  recent_inv fh w0 st w -> returns (pass args fh ev st) w (recent_inv fh w0).
Proof.
  intros Hpace (lines & Hlines & Hle & Hmap & Hbound).
  destruct (pass_spec args fh ev st w Hpace) as (w' & Hrun & _ & Hh & Hd & _).
  eapply returns_eq; [exact Hrun|].
  set (p := chosen_payload args st (length (heap w)) (after_injection args ev w)) in *.
  set (window := previously_emitted st) in *.
  pose proof (chosen_payload_bound args st w ev Hbound) as Hp. fold p in Hp.
  assert (Hlen : length (heap w') = S (length (heap w)))
    by (rewrite Hh, length_app; cbn [length]; lia).
  destruct (retain_as_drop window p) as (Hret & Hrlen & Hj).
  set (j := if Nat.ltb (length window) 5000 then 0 else length window - 1999) in *.
  exists (lines ++ [payload_line p w'])%list. cbn [previously_emitted].
  split; [rewrite Hd, Hlines; symmetry; apply app_assoc|].
  rewrite length_app. cbn [length].
  split; [lia|]. split.
  - rewrite Hret, <- List.skipn_map, List.map_app. cbn [map].
    replace (map (fun r => payload_line r w') window)
      with (map (fun r => payload_line r w) window).
    + rewrite Hmap, <- drop_app_le by lia. rewrite drop_drop.
      rewrite length_drop, length_app. cbn [length]. f_equal. lia.
    + apply map_ext_in. intros r Hr. symmetry.
      rewrite Forall_forall in Hbound.
      apply (payload_line_stable r w w' _ Hh). apply Hbound. now apply list_elem_of_In.
  - apply retain_Forall; [|lia].
    eapply Forall_impl; [exact Hbound|]. intros r Hr. cbv beta in *. lia.
Qed.



(** ** Rates at and beyond the ends of the unit interval *)

Lemma float_lt_class (u : Q) (r : pyfloat) (b : bool) :
  (0 <= u)%Q -> (u < 1)%Q -> rate_class r = Some b -> float_lt u r = b.
Proof.
  intros H0 H1. destruct r as [q| | |]; cbn [rate_class float_lt];
    try (now intros [= <-]).
  destruct (Qle_bool q 0) eqn:E0.
  - intros [= <-]. apply Qle_bool_iff in E0. apply negb_false_iff.
    apply Qle_bool_iff. now apply (Qle_trans _ 0).
  - destruct (Qle_bool 1 q) eqn:E1; [|discriminate].
    intros [= <-]. apply Qle_bool_iff in E1. apply negb_true_iff.
    destruct (Qle_bool q u) eqn:E; [|reflexivity].
    apply Qle_bool_iff in E. exfalso.
    apply (Qlt_not_le _ _ H1). now apply (Qle_trans _ q).
Qed.


(** ** The pass that writes its own record *)

(** When the duplicate branch is not taken, the pass writes the payload of
    its own event: the dictionary of the event, with the timestamp that the
    out-of-order step may have put in, is stored at a new address, its text
    is the one line added to the destination, and that address is what the
    window receives. *)
Theorem fresh_record_is_written (args : Namespace) (fh : bool)
    (ev : ClickstreamEvent) (st : LoopState) (w : World) :
  dup_taken args st (after_injection args ev w) = false ->
  exists w',
    emit_one args fh ev st w =
      Ok {| emitted := emitted st + 1;
            previously_emitted := retain (previously_emitted st) (length (heap w)) |}
         w' /\
    heap w' = (heap w ++ [fresh_payload args ev w])%list /\
    dest_lines fh w' =
      (dest_lines fh w ++ [json_dumps (JDict (fresh_payload args ev w))])%list /\
    dest_lines (negb fh) w' = dest_lines (negb fh) w.
Proof.
  intros Hno.
  destruct (emit_one_spec args fh ev st w) as (w' & Hrun & _ & Hh & Hd & Ho & _).
  destruct (chosen_payload_cases args st (length (heap w)) (after_injection args ev w))
    as [[_ Hp] | (Hyes & _)]; [|congruence].
  rewrite Hp in Hrun, Hd.
  exists w'. split; [exact Hrun|]. split; [exact Hh|]. split; [|exact Ho].
  rewrite Hd. unfold payload_line. rewrite Hh.
  rewrite lookup_app_r, Nat.sub_diag by lia. reflexivity.
Qed.

Lemma fresh_record_is_written_witness :
  exists w',
    emit_one sample_args false sample_event initial_state sample_world =
      Ok {| emitted := emitted initial_state + 1;
            previously_emitted :=
              retain (previously_emitted initial_state) (length (heap sample_world)) |}
         w' /\
    heap w' = (heap sample_world ++ [fresh_payload sample_args sample_event sample_world])%list /\
    dest_lines false w' =
      (dest_lines false sample_world
       ++ [json_dumps (JDict (fresh_payload sample_args sample_event sample_world))])%list /\
    dest_lines (negb false) w' = dest_lines (negb false) sample_world.
Proof.
  apply (fresh_record_is_written sample_args false sample_event initial_state sample_world).
  reflexivity.
Defined.

(** ** A run without duplication *)

Lemma clean_inv_io fh w0 st w w' :
  io_of w' = io_of w -> clean_inv fh w0 st w -> clean_inv fh w0 st w'.
Proof.
  unfold io_of, clean_inv. intros Hio.
  injection Hio as He Hh Ho Hs Hl _.
  assert (Hd : dest_lines fh w' = dest_lines fh w) by (destruct fh; assumption).
  rewrite Hd, Hh. auto.
Qed.

Lemma clean_inv_step args fh w0 ev st w :
  rate_class (dup_rate args) = Some false ->
  pace_error args (env w) = None ->
  clean_inv fh w0 st w -> returns (pass args fh ev st) w (clean_inv fh w0).
Proof.
  intros Hrate Hpace (payloads & Hheap & Hlines).
  destruct (pass_spec args fh ev st w Hpace) as (w' & Hrun & _ & Hh & Hd & _).
  eapply returns_eq; [exact Hrun|].
  assert (Hno : dup_taken args st (after_injection args ev w) = false).
  { unfold dup_taken. destruct (previously_emitted st); [reflexivity|].
    destruct (unit_draw_range (after_injection args ev w)).
    now apply float_lt_class. }
  destruct (chosen_payload_cases args st (length (heap w)) (after_injection args ev w))
    as [[_ Hp] | (Hyes & _)]; [|congruence].
  rewrite Hp in Hd.
  exists (payloads ++ [fresh_payload args ev w])%list.
  split; [rewrite Hh, Hheap; symmetry; apply app_assoc|].
  rewrite Hd, Hlines, List.map_app, <- app_assoc. do 2 f_equal. cbn [map].
  unfold payload_line. rewrite Hh.
  rewrite lookup_app_r, Nat.sub_diag by lia. reflexivity.
Qed.



(** ** Hexadecimal digits of a UUID *)

Lemma hex_digit_lower (n : nat) : n < 16 -> is_lower_hex (hex_digit n) = true.
Proof.
  intros H. do 16 (destruct n as [|n]; [reflexivity|]). lia.
Qed.

Lemma all_lower_hex_append (s t : string) :
  all_lower_hex (s +:+ t) = all_lower_hex s && all_lower_hex t.
Proof.
  induction s as [|c s IH]; [reflexivity|].
  rewrite append_cons. cbn [all_lower_hex]. rewrite IH. apply andb_assoc.
Qed.

Lemma hex_of_hex (k : nat) (n : N) : hex_string k (hex_of k n).
Proof.
  revert n. induction k as [|k IH]; intros n; [split; reflexivity|].
  destruct (IH (n / 16)%N) as [Hl Hh]. cbn [hex_of]. split.
  - rewrite length_append, Hl. cbn [String.length]. lia.
  - rewrite all_lower_hex_append, Hh. cbn [all_lower_hex andb].
    rewrite hex_digit_lower; [reflexivity|].
    pose proof (N.mod_upper_bound n 16 ltac:(discriminate)). lia.
Qed.

Lemma substring_hex (i k : nat) (s : string) :
  i + k <= String.length s -> all_lower_hex s = true -> hex_string k (substring i k s).
Proof.
  revert i k. induction s as [|c s IH]; intros i k Hl Hh.
  - cbn [String.length] in Hl. assert (i = 0 /\ k = 0) as [-> ->] by lia.
    split; reflexivity.
  - cbn [all_lower_hex] in Hh. apply andb_true_iff in Hh as [Hc Hs].
    cbn [String.length] in Hl.
    destruct i as [|i].
    + destruct k as [|k]; [split; reflexivity|].
      destruct (IH 0 k ltac:(lia) Hs) as [H1 H2]. cbn [substring]. split.
      * cbn [String.length]. now rewrite H1.
      * cbn [all_lower_hex]. now rewrite Hc, H2.
    + cbn [substring]. apply IH; [lia | exact Hs].
Qed.

Lemma uuid_hex_digits (e : Env) (n : nat) : hex_string 32 (uuid_hex e n).
Proof. apply hex_of_hex. Qed.

Lemma uuid_prefix_of (e : Env) (k n : nat) :
  k <= 32 -> uuid_prefix e k (substring 0 k (uuid_hex e n)).
Proof.
  intros Hk. destruct (uuid_hex_digits e n) as [Hl Hh].
  split; [apply substring_hex; [lia | exact Hh] | eauto].
Qed.

(** ** The fields of a synthesized event *)

(** [make_event] never fails, whatever string it gets as a type, and
    moves nothing but the tapes of its sources.  The event carries the two
    identifiers it was given; its type is the argument when that is a
    non-empty string and the member of [EVENT_TYPES] that the first draw
    selects otherwise; the identifier is the text of the next UUID (the one
    after the order's, for a purchase) and the timestamp that of the next
    clock reading; the page, the referrer, the device and the country come
    from the lists of the source and the city from Faker; the attributes
    are the two base members, then the four commerce members when the type
    is "add_to_cart" or "purchase" (product id from 1000 to 9999, price
    from 5.00 to 300.00, quantity from 1 to 3), then the two order members
    when it is "purchase", the order id made of the first twelve digits of
    the next UUID.  A UUID has 32 hexadecimal digits, and so its first
    twelve characters are twelve hexadecimal digits. *)
Theorem make_event_fields (u s : string) (ty : option string) (w : World) :
  exists e w',
    make_event u s ty w = Ok e w' /\
    io_of w' = io_of w /\
    user_id e = u /\ session_id e = s /\
    event_type e = chosen_type ty w /\
    match ty with
    | Some (String _ _) => True
    | _ => In (event_type e) EVENT_TYPES
    end /\
    page e = chosen_page ty w /\
    event_ts e = isoformat_ms (wall_clock (env w) (clock_pos w)) /\
    event_body (env w) (uuid_pos w) (city_pos w) e /\
    forall n,
      hex_string 32 (uuid_hex (env w) n) /\
      hex_string 12 (substring 0 12 (uuid_hex (env w) n)).
Proof.
  pose proof (make_event_exact u s ty w) as H.
  apply returns_exists in H.
  destruct H as (e & w' & He & Hio & Hu & Hs & Ht & Hp & Hts & Hb).
  exists e, w'. repeat (split; [assumption|]).
  split; [|split; [exact Hp|split; [exact Hts|split; [exact Hb|]]]].
  2: { intros n. split; [apply uuid_hex_digits|].
       apply (uuid_prefix_of (env w) 12 n). lia. }
  rewrite Ht. destruct ty as [[|c r]|]; [|exact I|];
    apply nth_In, mod_index_lt; discriminate.
Qed.

(** ** The events that reach the loop *)

Lemma chosen_type_listed (t : string) (w : World) :
  In t EVENT_TYPES -> chosen_type (Some t) w = t /\ In (chosen_type (Some t) w) EVENT_TYPES.
Proof.
  intros Ht. cbn in Ht. destruct Ht as [<-|[<-|[<-|[]]]]; cbn; auto.
Qed.

Lemma returns_make_session_event u s t w :
  In t EVENT_TYPES ->
  returns (make_event u s (Some t)) w (fun e w' =>
    io_of w' = io_of w /\ event_type e = t /\ session_event (env w) u s e).
Proof.
  intros Ht. eapply returns_mono; [apply make_event_exact|].
  intros e w' (Hio & Hu & Hs & Hty & _ & Hts & Hb).
  destruct (chosen_type_listed t w Ht) as [E Hin].
  split; [exact Hio|]. split; [now rewrite Hty|].
  unfold session_event. rewrite Hty. eauto 10.
Qed.

Lemma returns_session_tail_shape k u s w :
  returns (session_tail k u s) w (fun evs w' =>
    io_of w' = io_of w /\ Forall (session_event (env w) u s) evs).
Proof.
  revert w. induction k as [|k IH]; intros w; cbn [session_tail].
  - apply returns_ret. auto.
  - apply returns_bind.
    eapply returns_mono; [apply returns_weighted_event_type|].
    intros t w1 [Hio1 Ht]. apply returns_bind.
    eapply returns_mono; [apply (returns_make_session_event u s t w1 Ht)|].
    intros e w2 (Hio2 & _ & He). apply returns_bind.
    eapply returns_mono; [apply IH|].
    intros evs w3 (Hio3 & Hall). apply returns_ret.
    assert (E1 : env w1 = env w) by (unfold io_of in Hio1; now injection Hio1).
    assert (E2 : env w2 = env w)
      by (unfold io_of in Hio2; injection Hio2; congruence).
    split; [congruence|]. rewrite E1 in He. rewrite E2 in Hall.
    constructor; assumption.
Qed.

Lemma session_event_emitted (en : Env) (u s : string) (e : ClickstreamEvent) :
  (exists h, uuid_prefix en 16 h /\ u = "usr_" +:+ h) ->
  (exists h, uuid_prefix en 16 h /\ s = "sess_" +:+ h) ->
  session_event en u s e -> emitted_event en e.
Proof.
  intros Hu Hs (<- & <- & Ht & (it & Hts) & Hb).
  unfold emitted_event. split; [exact Hu|]. split; [exact Hs|]. split; [exact Ht|].
  split; [|exact Hb]. exists it, 0%Z. split; [now left|].
  rewrite Hts. f_equal. lia.
Qed.

(** The sessions of the main loop: a new user, then the events of one
    session of that user. *)
Lemma returns_loop_session (m : Z) (w : World) :
  (1 <= m)%Z ->
  returns new_user_id w (fun u w1 =>
    returns (generate_session_events u m) w1 (fun evs w' =>
      io_of w' = io_of w /\ evs <> [] /\ Forall (emitted_event (env w)) evs)).
Proof.
  intros Hm. eapply returns_eq; [reflexivity|].
  match goal with |- returns (generate_session_events ?x _) ?w0 _ =>
    set (u := x); set (w1 := w0) end.
  assert (Hu : exists h, uuid_prefix (env w) 16 h /\ u = "usr_" +:+ h).
  { eexists. split; [apply (uuid_prefix_of (env w) 16 (uuid_pos w)); lia | reflexivity]. }
  assert (Hio1 : io_of w1 = io_of w) by reflexivity.
  assert (He1 : env w1 = env w) by reflexivity.
  clearbody u w1.
  unfold generate_session_events. step_prim.
  match goal with |- returns (bind (make_event _ ?x _) _) ?w0 _ =>
    set (s := x); set (w2 := w0) end.
  assert (Hs : exists h, uuid_prefix (env w) 16 h /\ s = "sess_" +:+ h).
  { eexists. split; [|subst s; rewrite He1; reflexivity].
    apply (uuid_prefix_of (env w) 16 (uuid_pos w1)); lia. }
  assert (Hio2 : io_of w2 = io_of w) by (rewrite <- Hio1; reflexivity).
  assert (He2 : env w2 = env w) by (rewrite <- He1; reflexivity).
  clearbody s w2.
  apply returns_bind.
  eapply returns_mono;
    [apply (returns_make_session_event u s "page_view" w2); cbn; auto|].
  intros first w3 (Hio3 & _ & Hfirst). cbv beta.
  apply returns_bind, returns_randint; [exact Hm | intros n Hn].
  apply returns_bind.
  eapply returns_mono; [apply returns_session_tail_shape|].
  intros more w4 (Hio4 & Hall). apply returns_ret.
  assert (He3 : env w3 = env w)
    by (unfold io_of in Hio3; injection Hio3; congruence).
  cbn [env with_rand_pos] in Hall. rewrite He3 in Hall. rewrite He2 in Hfirst.
  split; [rewrite Hio4; change (io_of w3 = io_of w); congruence|].
  split; [discriminate|].
  constructor; [now apply (session_event_emitted _ u s)|].
  eapply Forall_impl; [exact Hall|]. intros e. now apply session_event_emitted.
Qed.

Section LoopInvariantOnEvents.

Variables (args : Namespace) (fh : bool) (en : Env).
Variable Inv : LoopState -> World -> Prop.

Hypothesis Inv_io : forall st w w', io_of w' = io_of w -> Inv st w -> Inv st w'.
Hypothesis Inv_env : forall st w, Inv st w -> env w = en.
Hypothesis Inv_step : forall ev st w,
    emitted_event en ev -> Inv st w -> returns (pass args fh ev st) w Inv.

Lemma for_session_events_inv evs st w :
  Forall (emitted_event en) evs ->
  Inv st w ->
  returns (for_session args fh evs st) w (fun st' w' =>
    Inv st' w' /\
    (emitted st <= emitted st' <= Z.max (emitted st) (events args))%Z /\
    (evs <> [] -> emitted st < events args -> emitted st < emitted st')%Z).
Proof.
  revert st w. induction evs as [|ev evs IH]; intros st w Hall HI; cbn [for_session].
  - apply returns_ret. split; [exact HI|]. split; [lia | congruence].
  - apply Forall_cons in Hall. destruct Hall as [Hev Hall].
    destruct (Z.leb_spec (events args) (emitted st)) as [Hdone|Hmore].
    + apply returns_ret. split; [exact HI|]. split; lia.
    + apply returns_bind.
      eapply returns_mono; [apply pass_counts, (Inv_step ev st w Hev HI)|].
      intros st1 w1 [HI1 Hc1]. cbv beta.
      eapply returns_mono; [apply (IH st1 w1 Hall HI1)|].
      intros st2 w2 (HI2 & Hr & _). cbv beta. split; [exact HI2|]. split; lia.
Qed.

Lemma while_emitting_events_inv fuel st w :
  (1 <= max_events_per_session args)%Z ->
  Inv st w ->
  (events args - emitted st <= Z.of_nat fuel)%Z ->
  returns (while_emitting fuel args fh st) w (fun r w' =>
    exists st', r = Some st' /\ Inv st' w' /\
                emitted st' = Z.max (emitted st) (events args)).
Proof.
  intros Hmax. revert st w.
  induction fuel as [|fuel IH]; intros st w HI Hfuel; cbn [while_emitting];
    destruct (Z.ltb_spec (emitted st) (events args)) as [Hmore|Hdone];
    try (apply returns_ret; exists st; repeat split; [exact HI | lia]).
  - lia.
  - apply returns_bind.
    eapply returns_mono; [apply (returns_loop_session _ w Hmax)|].
    intros u w1 Hgen. cbv beta. apply returns_bind.
    eapply returns_mono; [exact Hgen|].
    intros evs w2 (Hio2 & Hne & Hall). cbv beta.
    rewrite (Inv_env st w HI) in Hall.
    apply returns_bind.
    eapply returns_mono; [apply (for_session_events_inv evs st w2 Hall)|].
    + eapply Inv_io; [|exact HI]. exact Hio2.
    + intros st1 w3 (HI1 & Hr & Hprog). cbv beta.
      specialize (Hprog Hne Hmore).
      eapply returns_mono; [apply (IH st1 w3 HI1); lia|].
      intros r w4 (st2 & -> & HI2 & Hc). exists st2. repeat split; [exact HI2 | lia].
Qed.

End LoopInvariantOnEvents.

(** ** Every record line is the text of an event *)

Lemma emitted_event_shifted (en : Env) (it : nat) (d : Z) (e : ClickstreamEvent) :
  (60 <= d <= 3600)%Z ->
  emitted_event en e ->
  emitted_event en (with_event_ts (isoformat_ms (wall_clock en it - d * 1000000)) e).
Proof.
  intros Hd (Hu & Hs & Ht & _ & Hb).
  unfold emitted_event, event_body, with_event_ts in *.
  cbn [event_id event_ts user_id session_id event_type page referrer device geo
       attributes].
  split; [exact Hu|]. split; [exact Hs|]. split; [exact Ht|].
  split; [exists it, d; auto | exact Hb].
Qed.

Lemma fresh_payload_event args ev w :
  emitted_event (env w) ev ->
  exists e, fresh_payload args ev w = asdict e /\ emitted_event (env w) e.
Proof.
  intros Hev. unfold fresh_payload. destruct (oo_taken args w).
  - rewrite dict_set_event_ts. eexists. split; [reflexivity|].
    unfold oo_event_ts. apply emitted_event_shifted; [apply oo_delta_range | exact Hev].
  - now exists ev.
Qed.

Lemma schema_inv_io fh w0 st w w' :
  io_of w' = io_of w -> schema_inv fh w0 st w -> schema_inv fh w0 st w'.
Proof.
  unfold io_of, schema_inv. intros Hio.
  injection Hio as He Hh Ho Hs Hl _.
  assert (Hd : dest_lines fh w' = dest_lines fh w) by (destruct fh; assumption).
  rewrite Hd, Hh. auto.
Qed.

Lemma schema_inv_step args fh w0 ev st w :
  pace_error args (env w) = None ->
  env w = env w0 ->
  emitted_event (env w0) ev ->
  schema_inv fh w0 st w -> returns (pass args fh ev st) w (schema_inv fh w0).
Proof.
  intros Hpace Henv Hev (Hwin & lines & Hlines & Hall).
  destruct (pass_spec args fh ev st w Hpace) as (w' & Hrun & _ & Hh & Hd & _).
  eapply returns_eq; [exact Hrun|].
  set (p := chosen_payload args st (length (heap w)) (after_injection args ev w)) in *.
  rewrite <- Henv in Hev.
  destruct (fresh_payload_event args ev w Hev) as (e0 & He0 & Hok0).
  rewrite Henv in Hok0.
  assert (Hp : exists e, heap w' !! p = Some (asdict e) /\ emitted_event (env w0) e).
  { destruct (chosen_payload_cases args st (length (heap w)) (after_injection args ev w))
      as [[_ Hp] | (_ & _ & Hp)]; fold p in Hp.
    - exists e0. split; [|exact Hok0].
      rewrite Hh, Hp, lookup_app_r, Nat.sub_diag by lia. cbn. now rewrite He0.
    - apply list_elem_of_lookup_2 in Hp. rewrite Forall_forall in Hwin.
      destruct (Hwin p Hp) as (e & He & Hok). exists e. split; [|exact Hok].
      rewrite Hh. now apply lookup_app_l_Some. }
  split; cbn [previously_emitted].
  - apply retain_Forall; [|exact Hp].
    eapply Forall_impl; [exact Hwin|]. intros r (e & He & Hok). exists e.
    split; [|exact Hok]. rewrite Hh. now apply lookup_app_l_Some.
  - exists (lines ++ [payload_line p w'])%list.
    split; [rewrite Hd, Hlines; symmetry; apply app_assoc|].
    apply Forall_app. split; [exact Hall|]. constructor; [|constructor].
    destruct Hp as (e & He & Hok). exists e. split; [|exact Hok].
    unfold payload_line. now rewrite He.
Qed.


